(* Shallow embedding of the map-rendering callbacks of the Westeros
   dashboards: [map] in src/sameinad.py (the combined dashboard, with the
   kingdom-name filter) and [map] in src/map.py (the standalone map app).

   Library behaviour is modelled as follows.
   - pandas / geopandas result sets are lists of records in query order.
   - shapely's [geometry.unary_union.centroid.coords[:]] is a parameter
     [union_centroid] of the build (a list of (x, y) pairs, empty when there
     is no geometry).
   - numpy's legacy MT19937 generator is a parameter (state type, seeding,
     next 32-bit word); [randint] is numpy's masked rejection sampler on top
     of it, written out.
   - matplotlib's resampled colormap lookup is written out: the index
     computation [int(fl(fl(i / n) * N))] rounds each float64 operation
     with [f64_round] (IEEE binary64, round half to even); the linspace
     positions are exact rationals; the rainbow colour functions and
     [rgb2hex] are written over the reals in [Rainbow].
   - other float arithmetic (radii, centroids) is modelled exactly (Q or R).
   - folium's [_repr_html_] is modelled by the checks that can fail in it:
     the field assertions of [GeoJsonTooltip] and [GeoJsonPopup]. *)

From Stdlib Require Import String Ascii List ZArith QArith Qround Lia Bool.
From Stdlib Require Import Reals Qreals Lra Sorted Permutation Qpower Qabs.
From Stdlib Require Lqa.
Import ListNotations.

Local Open Scope string_scope.
Local Open Scope Z_scope.

(* ------------------------------------------------------------------ *)
(** * Python values and errors *)

Inductive py_error :=
| IndexError        (* tuple index out of range *)
| AttributeError    (* e.g. ['Polygon' object has no attribute 'y'] *)
| ValueError
| AssertionError    (* folium's field checks at render time *)
| GEOSException.    (* shapely: coordinates of an empty point *)

Inductive result (A : Type) :=
| Ok (a : A)
| Raise (e : py_error).
Arguments Ok {A} a.
Arguments Raise {A} e.

Definition bind {A B} (r : result A) (k : A -> result B) : result B :=
  match r with Ok a => k a | Raise e => Raise e end.

Notation "x <- r ;; k" := (bind r (fun x => k))
  (at level 61, r at next level, right associativity).

(** [for row in rows: out.append(f(row))]: the first exception propagates. *)
Fixpoint map_result {A B} (f : A -> result B) (l : list A) : result (list B) :=
  match l with
  | [] => Ok []
  | a :: r => b <- f a ;; bs <- map_result f r ;; Ok (b :: bs)
  end.

(** Python truthiness of a nullable text column: [None] and [''] are falsy. *)
Definition py_or_str (s : option string) (dflt : string) : string :=
  match s with
  | None => dflt
  | Some t => if String.eqb t "" then dflt else t
  end.

(** [str(n)] for an integer. *)
Fixpoint digits_aux (fuel : nat) (n : Z) (acc : string) : string :=
  match fuel with
  | O => acc
  | S f =>
      let acc' := String (ascii_of_nat (48 + Z.to_nat (n mod 10))%nat) acc in
      if Z.ltb n 10 then acc' else digits_aux f (n / 10) acc'
  end.

Definition str_Z (n : Z) : string :=
  if Z.ltb n 0 then "-" ++ digits_aux 64 (- n) "" else digits_aux 64 n "".

(** Substring test, [sub in s]. *)
Fixpoint contains (s sub : string) : bool :=
  String.prefix sub s ||
  match s with
  | EmptyString => false
  | String _ s' => contains s' sub
  end.

(* ------------------------------------------------------------------ *)
(** * Rows of the three queries *)

(** Parsed WKT geometry (longitude, latitude). *)
Inductive geometry :=
| GPoint (x y : Q)
| GPolygon (ring : list (Q * Q)).

(** [SELECT gid, name, type, summary, geom FROM atlas.locations]; a NULL
    summary is [None]. *)
Record location := mkLocation {
  loc_name : string;
  loc_type : string;
  loc_summary : option string;
  loc_geom : geometry }.

(** [SELECT gid, name, claimedby, summary, geom FROM atlas.kingdoms]. *)
Record kingdom := mkKingdom {
  k_name : string;
  k_claimedby : string;
  k_summary : option string;
  k_geom : geometry }.

(** An empty geometry (a polygon without vertices). *)
Definition geom_is_empty (g : geometry) : bool :=
  match g with GPoint _ _ => false | GPolygon ring => match ring with [] => true | _ => false end end.

(** The houses query: [... FROM atlas.locations WHERE type IN ('Castle',
    'City')], same table, same row order. *)
Definition is_house_type (t : string) : bool :=
  String.eqb t "Castle" || String.eqb t "City".

Definition houses_of (locs : list location) : list location :=
  filter (fun l => is_house_type (loc_type l)) locs.

(** [row.geometry.y], [row.geometry.x]: only points have them. *)
Definition point_yx (g : geometry) : result (Q * Q) :=
  match g with
  | GPoint x y => Ok (y, x)
  | GPolygon _ => Raise AttributeError
  end.

(* ------------------------------------------------------------------ *)
(** * Map artifacts *)

Inductive color :=
| HexColor (r g b : Z)       (* "#rrggbb" produced by rgb2hex *)
| NamedColor (s : string).   (* a CSS / folium colour name *)

Record kingdom_feature := mkFeature {
  kf_kingdom : kingdom;
  kf_color : color;
  kf_popup : string }.

Record marker := mkMarker {
  mk_latlon : Q * Q;
  mk_popup : string;
  mk_icon : string;
  mk_color : string }.

Record circle_marker := mkCircle {
  cm_latlon : Q * Q;
  cm_radius : Q;
  cm_popup : string }.

Inductive layer :=
| TileLayer
| KingdomLayer (fs : list kingdom_feature)
| ClusterLayer (ms : list marker)
| HousesLayer (cs : list circle_marker)
| LayerControl.

(** [folium.Map(location=[lat, lon], ...)] and the children added to it, in
    the order of the [add_to(m)] calls. *)
Record map_view := mkMap {
  center : Q * Q;
  layers : list layer }.

Inductive layer_kind := KTiles | KKingdoms | KCluster | KHouses | KControl.

Definition kind_of (l : layer) : layer_kind :=
  match l with
  | TileLayer => KTiles
  | KingdomLayer _ => KKingdoms
  | ClusterLayer _ => KCluster
  | HousesLayer _ => KHouses
  | LayerControl => KControl
  end.

Definition placeholder : string := "No summary available.".

(** Leading whitespace of the triple-quoted f-strings. *)
Definition nl_indent : string :=
  String (ascii_of_nat 10) "            ".

(* ------------------------------------------------------------------ *)
(** * numpy: [np.random.seed] and legacy [RandomState.randint] *)

Section Numpy.

(** MT19937 state, [np.random.seed(s)] and [next_uint32]. *)
Variable mt_state : Type.
Variable mt_seed : Z -> mt_state.
Variable next_uint32 : mt_state -> Z * mt_state.

(** [gen_mask]: smallest [2^k - 1] that is [>= max]. *)
Definition gen_mask (max : Z) : Z :=
  let m := Z.lor max (Z.shiftr max 1) in
  let m := Z.lor m (Z.shiftr m 2) in
  let m := Z.lor m (Z.shiftr m 4) in
  let m := Z.lor m (Z.shiftr m 8) in
  let m := Z.lor m (Z.shiftr m 16) in
  Z.lor m (Z.shiftr m 32).

(** [buffered_bounded_masked_uint32]:
    [while ((val = (next_uint32(state) & mask)) > rng);]
    The loop is bounded by [fuel]; [None] means the fuel ran out. *)
Fixpoint bounded_masked_uint32 (fuel : nat) (st : mt_state) (rng mask : Z)
  : option (Z * mt_state) :=
  match fuel with
  | O => None
  | S f =>
      let (u, st') := next_uint32 st in
      let v := Z.land u mask in
      if v <=? rng then Some (v, st') else bounded_masked_uint32 f st' rng mask
  end.

(** [random_bounded_uint64_fill], masked path for [0 < rng < 2^32 - 1]:
    [out[i] = off + buffered_bounded_masked_uint32(...)]. *)
Fixpoint bounded_fill (fuel : nat) (st : mt_state) (off rng mask : Z) (cnt : nat)
  : option (list Z * mt_state) :=
  match cnt with
  | O => Some ([], st)
  | S c =>
      match bounded_masked_uint32 fuel st rng mask with
      | None => None
      | Some (v, st1) =>
          match bounded_fill fuel st1 off rng mask c with
          | None => None
          | Some (vs, st2) => Some ((off + v) :: vs, st2)
          end
      end
  end.

(** [np.random.randint(low, high, size=cnt)]: values in [[low, high)];
    [rng = high - low - 1]. *)
Definition randint (fuel : nat) (st : mt_state) (low high : Z) (cnt : nat)
  : option (list Z * mt_state) :=
  let rng := high - low - 1 in
  if rng =? 0 then Some (repeat low cnt, st)
  else bounded_fill fuel st low rng (gen_mask rng) cnt.

(** sameinad.py lines 247-248 / map.py lines 73-74:
    [np.random.seed(42)] then
    [houses_gdf['population'] = np.random.randint(100, 5000, size=len(houses_gdf))].
    The generator state [rng0] left by earlier calls is overwritten by the
    seeding. *)
Definition seeded_populations (rng0 : mt_state) (fuel : nat) (n : nat)
  : option (list Z * mt_state) :=
  let st := mt_seed 42 in
  randint fuel st 100 5000 n.

End Numpy.

(** Probability that one masked draw of [randint(low, high)] returns [v],
    for a uniformly distributed 32-bit word [u]: [u & mask] is uniform on
    [[0, mask]] (mask = 2^k - 1), and the draw is that value conditioned on
    acceptance ([<= rng]). *)
Definition masked_candidates (low high : Z) : list Z :=
  map Z.of_nat (seq 0 (S (Z.to_nat (gen_mask (high - low - 1))))).

Definition accepted (low high : Z) : list Z :=
  filter (fun m => m <=? high - low - 1) (masked_candidates low high).

Definition draw_prob (low high v : Z) : Q :=
  (inject_Z (Z.of_nat (length (filter (fun m => low + m =? v) (accepted low high))))
   / inject_Z (Z.of_nat (length (accepted low high))))%Q.

(* ------------------------------------------------------------------ *)
(** * matplotlib: [cm.get_cmap('rainbow', n)] and [colormap(x)] *)

(** The [k]-th LUT entry of a colormap resampled to [N] entries samples the
    colour functions at [np.linspace(0, 1, N)[k]]. *)
Definition lut_position (N k : nat) : Q :=
  if (N <=? 1)%nat then 0%Q
  else (inject_Z (Z.of_nat k) / inject_Z (Z.of_nat N - 1))%Q.

(** float64 rounding. [Qlog2_floor x] is [floor(log2 x)] for [x > 0]. *)
Definition Qlog2_floor (x : Q) : Z :=
  let k := Z.log2 (Qnum x) - Z.log2 (Z.pos (Qden x)) in
  if Qle_bool (2 ^ k) x then k else k - 1.

(** Nearest integer, ties to the even one. *)
Definition Qround_half_even (y : Q) : Z :=
  let f := Qfloor y in
  match (y - inject_Z f ?= 1 # 2)%Q with
  | Lt => f
  | Gt => f + 1
  | Eq => if Z.even f then f else f + 1
  end.

(** Round a non-negative rational to the nearest binary64 value: 53
    significant bits, exponent at least -1074 (subnormals). There is no
    overflow branch: the values rounded here lie in [[0, N]]. *)
Definition f64_round_nonneg (x : Q) : Q :=
  if Qle_bool x 0 then 0 else
  let e := Z.max (Qlog2_floor x - 52) (-1074) in
  (inject_Z (Qround_half_even (x / 2 ^ e)) * 2 ^ e)%Q.

Definition f64_round (x : Q) : Q :=
  if Qle_bool 0 x then f64_round_nonneg x else (- f64_round_nonneg (- x))%Q.

(** [Colormap.__call__] on a float [x]: [xa = np.array(x)],
    [xa *= self.N] (a float64 product, rounded), [xa[xa == self.N] = self.N - 1],
    under / over values (by default the first / last entry), then
    [xa.astype(int)], which truncates. *)
Definition cmap_index (N : nat) (x : Q) : nat :=
  let xa := f64_round (x * inject_Z (Z.of_nat N)) in
  if Qeq_bool xa (inject_Z (Z.of_nat N)) then (N - 1)%nat
  else if negb (Qle_bool 0 xa) then O
  else if Qle_bool (inject_Z (Z.of_nat N)) xa then (N - 1)%nat
  else Z.to_nat (Qfloor xa).

(** [i / n] for Python integers: true division, correctly rounded to a
    float64. *)
Definition py_div (i n : nat) : Q :=
  f64_round (inject_Z (Z.of_nat i) / inject_Z (Z.of_nat n)).

(* ------------------------------------------------------------------ *)
(** * Settlement radius (get_radius) *)

(** [houses_gdf['population'].min()] / [.max()] (only used when the set is
    non-empty: with no rows [get_radius] is never called). *)
Definition pop_min (ps : list Z) : Z :=
  match ps with [] => 0 | p :: r => fold_left Z.min r p end.

Definition pop_max (ps : list Z) : Z :=
  match ps with [] => 0 | p :: r => fold_left Z.max r p end.

(** sameinad.py lines 360-364 (map.py line 166 is the same expression):
    [5 + (pop - pop_min) / (pop_max - pop_min) * 10 if pop_max > pop_min else 10]. *)
Definition get_radius (pop_min pop_max pop : Z) : Q :=
  if pop_max >? pop_min
  then (5 + inject_Z (pop - pop_min) / inject_Z (pop_max - pop_min) * 10)%Q
  else 10%Q.

(* ------------------------------------------------------------------ *)
(** * Popups and lookup tables *)

(** Marker popup of a location (both files). *)
Definition location_popup (l : location) : string :=
  nl_indent ++ "<b>Name:</b> " ++ loc_name l ++ "<br>" ++
  nl_indent ++ "<b>Type:</b> " ++ loc_type l ++ "<br>" ++
  nl_indent ++ "<b>Summary:</b> " ++ py_or_str (loc_summary l) placeholder ++
  nl_indent.

(** Circle-marker popup of a house (both files). *)
Definition house_popup (h : location) (pop : Z) : string :=
  nl_indent ++ "<b>Name:</b> " ++ loc_name h ++ "<br>" ++
  nl_indent ++ "<b>Population:</b> " ++ str_Z pop ++ "<br>" ++
  nl_indent ++ "<b>Type:</b> " ++ loc_type h ++ "<br>" ++
  nl_indent ++ "<b>Summary:</b> " ++ py_or_str (loc_summary h) placeholder ++
  nl_indent.

(** [folium.GeoJsonPopup] renders each field client side as a table row;
    a property that is JSON [null] is shown by [JSON.stringify] as "null". *)
Definition geojson_value (v : option string) : string :=
  match v with None => "null" | Some s => s end.

Definition geojson_row (labels : bool) (field : string * option string) : string :=
  "<tr>" ++ (if labels then "<th>" ++ fst field ++ "</th>" else "") ++
  "<td>" ++ geojson_value (snd field) ++ "</td></tr>".

Definition geojson_popup (labels : bool) (fields : list (string * option string))
  : string :=
  "<table>" ++ String.concat "" (map (geojson_row labels) fields) ++ "</table>".

(** [dict.get(key, default)] on a literal dict. *)
Fixpoint dict_get (d : list (string * string)) (key dflt : string) : string :=
  match d with
  | [] => dflt
  | (k, v) :: r => if String.eqb k key then v else dict_get r key dflt
  end.

(** [folium.Marker(location=..., popup=..., icon=folium.Icon(...))]:
    [validate_location] only rejects NaN or non-numeric coordinates, which
    a rational coordinate never is, so construction succeeds. *)
Definition folium_marker (yx : Q * Q) (popup icon color : string) : result marker :=
  Ok (mkMarker yx popup icon color).

(** Circle markers of the houses layer (sameinad.py lines 356-383, map.py
    lines 161-187): the [n]-th house gets the [n]-th drawn population. *)
Definition house_circles (houses : list location) (pops : list Z)
  : result (list circle_marker) :=
  let mn := pop_min pops in
  let mx := pop_max pops in
  map_result
    (fun hp : location * Z =>
       let (h, pop) := hp in
       yx <- point_yx (loc_geom h) ;;
       Ok (mkCircle yx (get_radius mn mx pop) (house_popup h pop)))
    (combine houses pops).

(** [gs.unary_union.centroid.coords[:][0]], read as [(lon, lat)] and passed
    to folium as [[lat, lon]]; indexing an empty coordinate list raises. *)
Definition centroid_latlon (union_centroid : list geometry -> list (Q * Q))
  (gs : list geometry) : result (Q * Q) :=
  match union_centroid gs with
  | (x, y) :: _ => Ok (y, x)
  | [] => Raise IndexError
  end.

(** At render ([m._repr_html_()], sameinad.py line 389, map.py line 193)
    [GeoJsonTooltip] and [GeoJsonPopup] assert that each of their [fields]
    is a property key of the first feature of the layer's GeoJSON. The
    properties of every feature are the [columns] of the GeoDataFrame
    other than the geometry; an empty FeatureCollection has no first
    feature, and the keys are then empty. *)
Definition geojson_fields_check (columns : list string)
  (feats : list kingdom_feature) (fields : list string) : result unit :=
  let keys := match feats with [] => [] | _ :: _ => columns end in
  if forallb (fun f => existsb (String.eqb f) keys) fields then Ok tt
  else Raise AssertionError.

Module Sameinad.

(** sameinad.py lines 310-324. *)
Definition color_mapping : list (string * string) :=
  [("Castle", "red"); ("City", "blue"); ("Fortress", "green"); ("Keep", "orange")].

Definition icon_mapping : list (string * string) :=
  [("Castle", "shield-alt"); ("City", "building"); ("Fortress", "archway");
   ("Keep", "home")].

(** sameinad.py lines 329-353, one location row. *)
Definition location_marker (l : location) : result marker :=
  let marker_color := dict_get color_mapping (loc_type l) "gray" in
  let icon_name := dict_get icon_mapping (loc_type l) "info-circle" in
  let popup_content := location_popup l in
  match (yx <- point_yx (loc_geom l) ;;
         folium_marker yx popup_content icon_name marker_color) with
  | Raise ValueError =>
      yx <- point_yx (loc_geom l) ;;
      folium_marker yx popup_content "info-circle" "gray"
  | r => r
  end.

(** Kingdom popup: [folium.GeoJsonPopup(fields=['name', 'claimedby',
    'summary'], aliases=['Name:', 'Claimed By:', 'Summary:'])]. *)
Definition kingdom_popup (k : kingdom) : string :=
  geojson_popup true
    [("Name:", Some (k_name k)); ("Claimed By:", Some (k_claimedby k));
     ("Summary:", k_summary k)].

(** sameinad.py lines 251-254: [if selected_kingdoms:] filter by
    [kingdom_gdf['name'].isin(selected_kingdoms)]; an empty selection keeps
    all rows. *)
Definition select_kingdoms (selected : list string) (ks : list kingdom) : list kingdom :=
  match selected with
  | [] => ks
  | _ => filter (fun k => existsb (String.eqb (k_name k)) selected) ks
  end.

(** sameinad.py lines 257-262: colours of the [n] kingdom rows; with no
    rows the column is set to the constant 'gray'. [rainbow_hex t] is
    [rgb2hex] of the rainbow colour functions at LUT position [t]. *)
Definition kingdom_colors (rainbow_hex : Q -> color) (ks : list kingdom) : list color :=
  let n := length ks in
  if (0 <? n)%nat
  then map (fun i => rainbow_hex (lut_position n (cmap_index n (py_div i n)))) (seq 0 n)
  else map (fun _ => NamedColor "gray") ks.

(** Columns of [kingdom_gdf] other than the geometry: the query's
    (sameinad.py lines 223-226) and [color]. *)
Definition kingdom_columns : list string :=
  ["gid"; "name"; "claimedby"; "summary"; "geom_wkt"; "color"].

(** sameinad.py lines 265-268. *)
Definition map_center (union_centroid : list geometry -> list (Q * Q))
  (ks : list kingdom) (locs : list location) : result (Q * Q) :=
  match ks with
  | [] => centroid_latlon union_centroid (map loc_geom locs)
  | _ => centroid_latlon union_centroid (map k_geom ks)
  end.

(** sameinad.py lines 250-389, after the queries and the population draw:
    [locs] is the locations result set, [ks] the kingdoms result set,
    [pops] the drawn populations of [houses_of locs]. *)
Definition map_build (union_centroid : list geometry -> list (Q * Q))
  (rainbow_hex : Q -> color) (selected : list string) (locs : list location)
  (ks : list kingdom) (pops : list Z) : result map_view :=
  let kgs := select_kingdoms selected ks in
  let cols := kingdom_colors rainbow_hex kgs in
  c <- map_center union_centroid kgs locs ;;
  let feats := map (fun kc : kingdom * color =>
                      mkFeature (fst kc) (snd kc) (kingdom_popup (fst kc)))
                   (combine kgs cols) in
  ms <- map_result location_marker locs ;;
  cs <- house_circles (houses_of locs) pops ;;
  t <- geojson_fields_check kingdom_columns feats ["name"; "claimedby"] ;;
  p <- geojson_fields_check kingdom_columns feats ["name"; "claimedby"; "summary"] ;;
  Ok (mkMap c [TileLayer; KingdomLayer feats; ClusterLayer ms; HousesLayer cs;
               LayerControl]).

(** The whole callback: seeding and drawing, then the build. [None] when
    the rejection sampler runs out of fuel. *)
Definition map_render (mt_state : Type) (mt_seed : Z -> mt_state)
  (next_uint32 : mt_state -> Z * mt_state) (rng0 : mt_state) (fuel : nat)
  (union_centroid : list geometry -> list (Q * Q)) (rainbow_hex : Q -> color)
  (selected : list string) (locs : list location) (ks : list kingdom)
  : option (result map_view) :=
  match seeded_populations mt_state mt_seed next_uint32 rng0 fuel
          (length (houses_of locs)) with
  | Some (pops, _) =>
      Some (map_build union_centroid rainbow_hex selected locs ks pops)
  | None => None
  end.

End Sameinad.

Module MapPy.

(** map.py lines 98-105. *)
Definition type_icon_mapping : list (string * string) :=
  [("Castle", "fa-fort-awesome"); ("City", "fa-building"); ("Landmark", "fa-map-pin");
   ("Region", "fa-globe"); ("Ruin", "fa-university"); ("Town", "fa-home")].

(** map.py lines 109-125, one location row. *)
Definition location_marker (l : location) : result marker :=
  let popup_content := location_popup l in
  let icon_name := dict_get type_icon_mapping (loc_type l) "fa-info-circle" in
  yx <- point_yx (loc_geom l) ;;
  folium_marker yx popup_content icon_name "blue".

(** map.py lines 143-149: the f-string popup, shown through
    [GeoJsonPopup(fields=['popup'], labels=False)]. *)
Definition kingdom_popup_content (k : kingdom) : string :=
  nl_indent ++ "<b>Name:</b> " ++ k_name k ++ "<br>" ++
  nl_indent ++ "<b>Claimed By:</b> " ++ k_claimedby k ++ "<br>" ++
  nl_indent ++ "<b>Summary:</b> " ++ py_or_str (k_summary k) placeholder ++
  nl_indent.

Definition kingdom_popup (k : kingdom) : string :=
  geojson_popup false [("popup", Some (kingdom_popup_content k))].

(** map.py lines 77-79 (no guard for an empty collection: the list is then
    empty and [i / n] is never evaluated). *)
Definition kingdom_colors (rainbow_hex : Q -> color) (ks : list kingdom) : list color :=
  let n := length ks in
  map (fun i => rainbow_hex (lut_position n (cmap_index n (py_div i n)))) (seq 0 n).

(** map.py lines 82-85: [center = location_gdf.geometry.unary_union.centroid],
    [location=[center.y, center.x]]. With no location the centroid is an
    empty point, and reading its [y] raises shapely's GEOSException. *)
Definition map_center (union_centroid : list geometry -> list (Q * Q))
  (locs : list location) : result (Q * Q) :=
  match union_centroid (map loc_geom locs) with
  | (x, y) :: _ => Ok (y, x)
  | [] => Raise GEOSException
  end.

(** Columns of [kingdom_gdf] other than the geometry: the query's
    (map.py lines 46-49), [color], [tooltip] and [popup]. *)
Definition kingdom_columns : list string :=
  ["gid"; "name"; "claimedby"; "summary"; "geom_wkt"; "color"; "tooltip"; "popup"].

(** map.py lines 77-193, after the queries and the population draw. *)
Definition map_build (union_centroid : list geometry -> list (Q * Q))
  (rainbow_hex : Q -> color) (locs : list location) (ks : list kingdom)
  (pops : list Z) : result map_view :=
  let cols := kingdom_colors rainbow_hex ks in
  c <- map_center union_centroid locs ;;
  ms <- map_result location_marker locs ;;
  let feats := map (fun kc : kingdom * color =>
                      mkFeature (fst kc) (snd kc) (kingdom_popup (fst kc)))
                   (combine ks cols) in
  cs <- house_circles (houses_of locs) pops ;;
  t <- geojson_fields_check kingdom_columns feats ["tooltip"] ;;
  p <- geojson_fields_check kingdom_columns feats ["popup"] ;;
  Ok (mkMap c [TileLayer; ClusterLayer ms; KingdomLayer feats; HousesLayer cs;
               LayerControl]).

End MapPy.

(* ------------------------------------------------------------------ *)
(** * sameinad.py: configuration, queries and dashboard data *)

Module Dashboard.

(** Python truthiness of [os.getenv(...)]: [None] and [''] are falsy. *)
Definition py_truthy_str (v : option string) : bool :=
  match v with None => false | Some s => negb (String.eqb s "") end.

(** [f"{v}"] of an [os.getenv] result. *)
Definition py_str_opt (v : option string) : string :=
  match v with None => "None" | Some s => s end.

(** sameinad.py lines 30-34 up to the call of [create_engine]: the check
    of the five variables (lines 30-31), then the f-string argument passed
    to [create_engine]. The parse of that URL inside [create_engine] (for
    instance [int()] of the port, which raises [ValueError] on a
    non-numeric port) is not part of this definition. *)
Definition create_engine_arg (db_user db_password db_host db_port db_name : option string)
  : result string :=
  if negb (forallb py_truthy_str [db_user; db_password; db_host; db_port; db_name])
  then Raise ValueError
  else Ok ("postgresql://" ++ py_str_opt db_user ++ ":" ++ py_str_opt db_password ++
           "@" ++ py_str_opt db_host ++ ":" ++ py_str_opt db_port ++ "/" ++
           py_str_opt db_name).

(** A row of [got.houses]: [id], [name], [region]; and of [got.characters]:
    [id], [allegiances] (a NULL array is the empty one: [= ANY(NULL)] is
    never true). *)
Record house_db := mkHouseDb { h_id : Z; h_name : option string; h_region : option string }.
Record character := mkCharacter { c_id : Z; c_allegiances : list Z }.

(** The [CASE] on [h.region] of [fetch_houses_and_kingdoms] (lines 46-57)
    and of [query_population] (lines 73-84). A NULL region makes every
    [IN] and [=] test unknown, so it falls to [ELSE]. *)
Definition region_kingdom (region : option string) : string :=
  match region with
  | None => "Other Regions"
  | Some r =>
      if existsb (String.eqb r) ["The North"; "The Neck"; "Beyond the Wall"]
      then "The North"
      else if String.eqb r "The Vale" then "The Vale"
      else if String.eqb r "Iron Islands" then "Iron Islands"
      else if String.eqb r "The Riverlands" then "The Riverlands"
      else if String.eqb r "The Westerlands" then "The Westerlands"
      else if String.eqb r "The Stormlands" then "The Stormlands"
      else if String.eqb r "The Crownlands" then "The Crownlands"
      else if String.eqb r "The Reach" then "The Reach"
      else if String.eqb r "Dorne" then "Dorne"
      else "Other Regions"
  end.

(** The [CASE] on [k.name] of [query_area] (lines 93-97). *)
Definition area_kingdom (name : option string) : option string :=
  match name with
  | None => None
  | Some n =>
      if String.eqb n "The Neck" then Some "The North"
      else if String.eqb n "The Crownlands" then Some "The Crownlands"
      else Some n
  end.

(** Line 62: [.str.replace("^House ", "", regex=True)]: the anchored
    pattern matches at most once, at the start; a missing name stays
    missing. *)
Definition strip_house (s : option string) : option string :=
  match s with
  | None => None
  | Some t =>
      Some (if String.prefix "House " t then substring 6 (String.length t - 6) t else t)
  end.

(** [fetch_houses_and_kingdoms]: one row per house, columns
    ['House Name'] and ['Kingdom Name']. *)
Record house_row := mkHouseRow { house_name : option string; kingdom_name : string }.

Definition fetch_houses_and_kingdoms (hs : list house_db) : list house_row :=
  map (fun h => mkHouseRow (strip_house (h_name h)) (region_kingdom (h_region h))) hs.

(** Python's [sorted] on strings: code point order, which is the byte
    order of their UTF-8 encodings. *)
Fixpoint insert_str (s : string) (l : list string) : list string :=
  match l with
  | [] => [s]
  | x :: r => if String.leb s x then s :: l else x :: insert_str s r
  end.

Fixpoint sort_str (l : list string) : list string :=
  match l with [] => [] | x :: r => insert_str x (sort_str r) end.

(** [sorted(set(l))]; also the keys of a [groupby] (sorted, one per value). *)
Definition sorted_set (l : list string) : list string :=
  sort_str (nodup string_dec l).

(** Line 68: [groupby("Kingdom Name").size().reset_index(...)]. *)
Definition house_counts (rows : list house_row) : list (string * nat) :=
  let ks := map kingdom_name rows in
  map (fun k => (k, count_occ string_dec ks k)) (sorted_set ks).

(** [query_population]: the kingdom of each row of the join
    [characters JOIN houses ON h.id = ANY(c.allegiances)], then
    [COUNT(c.id)] per kingdom ([c.id] is never NULL). SQL leaves the order
    of the groups open; they are listed in ascending order here. *)
Definition joined_kingdoms (cs : list character) (hs : list house_db) : list string :=
  flat_map (fun c =>
    map (fun h => region_kingdom (h_region h))
        (filter (fun h => existsb (Z.eqb (h_id h)) (c_allegiances c)) hs)) cs.

Definition df_population (cs : list character) (hs : list house_db) : list (string * Z) :=
  let ks := joined_kingdoms cs hs in
  map (fun k => (k, Z.of_nat (count_occ string_dec ks k))) (sorted_set ks).

(** Line 112: [sorted(set(df_population['kingdom']).union(set(...)))]. *)
Definition kingdom_list (pop : list (string * Z)) (rows : list house_row) : list string :=
  sorted_set (map fst pop ++ map kingdom_name rows).

(** The order [sorted] leaves its result in. *)
Definition str_le (a b : string) : Prop := String.leb a b = true.

(** The non-missing values of a column. *)
Definition present (vs : list (option string)) : list string :=
  flat_map (fun v => match v with None => [] | Some s => [s] end) vs.

(** [nunique()]: the number of distinct non-missing values. *)
Definition nunique (vs : list (option string)) : nat :=
  length (nodup string_dec (present vs)).

(** [total_houses] (lines 148-150) and [total_population] (lines 155-157). *)
Definition total_houses_count (rows : list house_row) : nat :=
  nunique (map house_name rows).

Definition total_houses (rows : list house_row) : string :=
  "Total Houses: " ++ str_Z (Z.of_nat (total_houses_count rows)).

Definition total_population_count (pop : list (string * Z)) : Z :=
  fold_right Z.add 0 (map snd pop).

Definition total_population (pop : list (string * Z)) : string :=
  "Total Population: " ++ str_Z (total_population_count pop).

(** Lines 160-165. *)
Definition kingdom_color_mapping : list (string * string) :=
  [("The North", "#1f77b4"); ("The Reach", "#ff7f0e"); ("Dorne", "#2ca02c");
   ("The Westerlands", "#d62728"); ("The Riverlands", "#9467bd");
   ("The Vale", "#8c564b"); ("Iron Islands", "#e377c2");
   ("The Stormlands", "#7f7f7f"); ("The Crownlands", "#ffff00");
   ("Gift", "#17becf"); ("Other Regions", "#b5b5b5")].

(** The data of [house_count_plot], [population_plot] and [area_plot]
    (lines 172, 185, 198): [df[df[col].isin(selected)] if selected else df]. *)
Definition filter_selected {A} (key : A -> string) (selected : list string)
  (rows : list A) : list A :=
  match selected with
  | [] => rows
  | _ => filter (fun r => existsb (String.eqb (key r)) selected) rows
  end.

End Dashboard.

(* ------------------------------------------------------------------ *)
(** * matplotlib: the 'rainbow' colour functions and [rgb2hex] *)

Module Rainbow.
Local Open Scope R_scope.

(** [np.clip(data(xind), 0, 1)] in [_create_lookup_table]. *)
Definition clip01 (v : R) : R := Rmax 0 (Rmin v 1).

(** [_rainbow_data = {'red': gfunc[33], 'green': gfunc[13], 'blue': gfunc[10]}]:
    [abs(2x - 0.5)], [sin(x pi)], [cos(x pi / 2)]. *)
Definition red (x : R) : R := clip01 (Rabs (2 * x - 1 / 2)).
Definition green (x : R) : R := clip01 (sin (x * PI)).
Definition blue (x : R) : R := clip01 (cos (x * PI / 2)).

Definition Rfloor (r : R) : Z := (up r - 1)%Z.

(** Python [round] on a float: to the nearest integer, ties to even. *)
Definition round_half_even (r : R) : Z :=
  let f := Rfloor r in
  let d := r - IZR f in
  if Rlt_dec d (1 / 2) then f
  else if Rlt_dec (1 / 2) d then (f + 1)%Z
  else if Z.even f then f else (f + 1)%Z.

(** [to_hex]: [format(round(val * 255), "02x")] per channel. *)
Definition to_byte (v : R) : Z := round_half_even (v * 255).

Definition rgb2hex (r g b : R) : color := HexColor (to_byte r) (to_byte g) (to_byte b).

(** [rgb2hex] of the rainbow colour at position [t] of [[0, 1]]: the value
    the build stores for a LUT entry sampled at [t]. *)
Definition hex_at (t : Q) : color :=
  let x := Q2R t in rgb2hex (red x) (green x) (blue x).

End Rainbow.

(** The spec's [sample_rainbow_scale(t)]: the rainbow scale sampled at the
    fraction [t], as a hex colour. *)
Definition sample_rainbow_scale (t : Q) : color := Rainbow.hex_at t.

(* ------------------------------------------------------------------ *)
(** * Concrete library instances used in examples *)

Module Instances.

(** Centroid of the union of a collection, as the mean of its vertices:
    shapely's centroid for a single point, for distinct points and for
    centrally symmetric polygons (rectangles), the only shapes the examples
    use. Empty collection: empty coordinate list. *)
Definition vertices (g : geometry) : list (Q * Q) :=
  match g with GPoint x y => [(x, y)] | GPolygon ring => ring end.

Definition vertex_mean_centroid (gs : list geometry) : list (Q * Q) :=
  let vs := flat_map vertices gs in
  match vs with
  | [] => []
  | _ =>
      let n := inject_Z (Z.of_nat (length vs)) in
      [((fold_right Qplus 0 (map fst vs) / n)%Q, (fold_right Qplus 0 (map snd vs) / n)%Q)]
  end.

(** A 32-bit linear congruential generator standing in for MT19937. *)
Definition lcg_seed (s : Z) : Z := s mod 2 ^ 32.
Definition lcg_next (s : Z) : Z * Z :=
  let s' := (1103515245 * s + 12345) mod 2 ^ 32 in (s', s').

Definition unit_square : geometry := GPolygon [(0, 0); (1, 0); (1, 1); (0, 1)]%Q.

Definition kingdom_A : kingdom := mkKingdom "The North" "Stark" None unit_square.
Definition kingdom_B : kingdom :=
  mkKingdom "Dorne" "Martell" (Some "Sunny.") (GPolygon [(2, 2); (3, 2); (3, 3); (2, 3)]%Q).
Definition loc_castle : location :=
  mkLocation "Winterfell" "Castle" (Some "Seat of Stark.") (GPoint 3 3).
Definition loc_tower : location :=
  mkLocation "Tower of Joy" "Tower" None (GPoint 4 1).
Definition loc_region : location :=
  mkLocation "The Neck" "Region" None (GPolygon [(0, 0); (1, 0); (1, 1)]%Q).

End Instances.

(* ================================================================== *)
(** * Facts *)

(** ** Lists *)

Lemma fold_min_le : forall r p q, In q (p :: r) -> fold_left Z.min r p <= q.
Proof.
  induction r as [|a r IH]; intros p q Hin; simpl in *.
  - destruct Hin as [E|[]]; lia.
  - destruct Hin as [E|[E|Hin]].
    + specialize (IH (Z.min p a) (Z.min p a) (or_introl eq_refl)); lia.
    + specialize (IH (Z.min p a) (Z.min p a) (or_introl eq_refl)); lia.
    + apply IH; now right.
Qed.

Lemma fold_min_in : forall r p, In (fold_left Z.min r p) (p :: r).
Proof.
  induction r as [|a r IH]; intros p; simpl; [now left|].
  destruct (IH (Z.min p a)) as [E|E]; [rewrite <- E|auto].
  destruct (Z.min_spec p a) as [[_ ->]|[_ ->]]; auto.
Qed.

Lemma fold_max_ge : forall r p q, In q (p :: r) -> q <= fold_left Z.max r p.
Proof.
  induction r as [|a r IH]; intros p q Hin; simpl in *.
  - destruct Hin as [E|[]]; lia.
  - destruct Hin as [E|[E|Hin]].
    + specialize (IH (Z.max p a) (Z.max p a) (or_introl eq_refl)); lia.
    + specialize (IH (Z.max p a) (Z.max p a) (or_introl eq_refl)); lia.
    + apply IH; now right.
Qed.

Lemma fold_max_in : forall r p, In (fold_left Z.max r p) (p :: r).
Proof.
  induction r as [|a r IH]; intros p; simpl; [now left|].
  destruct (IH (Z.max p a)) as [E|E]; [rewrite <- E|auto].
  destruct (Z.max_spec p a) as [[_ ->]|[_ ->]]; auto.
Qed.

Lemma combine_fst_snd : forall A B (l : list A) (l' : list B),
  length l = length l' ->
  map fst (combine l l') = l /\ map snd (combine l l') = l'.
Proof.
  induction l as [|a l IH]; intros [|b l'] E; simpl in *; try discriminate; auto.
  destruct (IH l') as [E1 E2]; [lia|]. now rewrite E1, E2.
Qed.

Lemma kingdom_colors_length : forall rh ks,
  length (Sameinad.kingdom_colors rh ks) = length ks.
Proof.
  intros rh ks. unfold Sameinad.kingdom_colors.
  destruct (0 <? length ks)%nat; now rewrite length_map, ?length_seq.
Qed.

(** ** Result plumbing *)

Lemma bind_ok : forall A B (r : result A) (k : A -> result B) b,
  bind r k = Ok b -> exists a, r = Ok a /\ k a = Ok b.
Proof. intros A B [a|e] k b H; simpl in H; [eauto|discriminate]. Qed.

Ltac inv_ok :=
  repeat match goal with
  | H : bind ?r ?k = Ok _ |- _ =>
      let a := fresh "a" in let Ha := fresh "Ha" in
      apply bind_ok in H; destruct H as [a [Ha H]]
  | H : Ok _ = Ok _ |- _ => injection H as H; subst
  end.

(** Only the listed error can come out of a row-by-row loop whose body only
    raises it. *)
Lemma map_result_raise : forall A B (f : A -> result B) l e,
  (forall a e', f a = Raise e' -> e' = e) ->
  forall e', map_result f l = Raise e' -> e' = e.
Proof.
  intros A B f l e Hf. induction l as [|a l IH]; intros e' H; simpl in H;
    [discriminate|].
  destruct (f a) as [b|e0] eqn:Ef; simpl in H; [|injection H as <-; eauto].
  destruct (map_result f l) as [bs|e1]; simpl in H; [discriminate|].
  injection H as <-; eauto.
Qed.

Lemma house_circles_raise : forall hs ps e,
  house_circles hs ps = Raise e -> e = AttributeError.
Proof.
  intros hs ps e. unfold house_circles. apply map_result_raise.
  intros [h p] e' H. destruct (loc_geom h); simpl in H; congruence.
Qed.

Lemma sameinad_marker_raise : forall l e,
  Sameinad.location_marker l = Raise e -> e = AttributeError.
Proof.
  intros l e. unfold Sameinad.location_marker. destruct (loc_geom l); simpl;
    congruence.
Qed.

(** ** Settlement radius *)

Lemma pop_min_spec : forall ps, ps <> [] ->
  In (pop_min ps) ps /\ Forall (fun q => pop_min ps <= q) ps.
Proof.
  intros [|p r] Hne; [congruence|]. split; [apply fold_min_in|].
  apply Forall_forall. intros q Hq. now apply fold_min_le.
Qed.

Lemma pop_max_spec : forall ps, ps <> [] ->
  In (pop_max ps) ps /\ Forall (fun q => q <= pop_max ps) ps.
Proof.
  intros [|p r] Hne; [congruence|]. split; [apply fold_max_in|].
  apply Forall_forall. intros q Hq. now apply fold_max_ge.
Qed.

Lemma inject_Z_sub_nonzero : forall a b, a < b -> ~ (inject_Z (b - a) == 0)%Q.
Proof.
  intros a b Hab E. unfold Qeq in E. simpl in E. lia.
Qed.

(** C3: for a non-empty list of populations, [pop_min] / [pop_max] are its
    minimum and maximum; when [max > min] the radius of population [p] is
    [5 + 10 (p - min) / (max - min)], so the minimum gets 5 and the maximum
    15; when all populations are equal ([min = max]) every radius is 10. *)
Theorem get_radius_interpolates : forall (ps : list Z) (p : Z), ps <> [] ->
  (In (pop_min ps) ps /\ Forall (fun q => pop_min ps <= q) ps) /\
  (In (pop_max ps) ps /\ Forall (fun q => q <= pop_max ps) ps) /\
  (pop_min ps < pop_max ps ->
     (get_radius (pop_min ps) (pop_max ps) p ==
        5 + 10 * inject_Z (p - pop_min ps) / inject_Z (pop_max ps - pop_min ps))%Q /\
     (get_radius (pop_min ps) (pop_max ps) (pop_min ps) == 5)%Q /\
     (get_radius (pop_min ps) (pop_max ps) (pop_max ps) == 15)%Q) /\
  (pop_min ps = pop_max ps -> (get_radius (pop_min ps) (pop_max ps) p == 10)%Q).
Proof.
  intros ps p Hne.
  split; [now apply pop_min_spec|]. split; [now apply pop_max_spec|].
  split.
  - intros Hlt. unfold get_radius.
    replace (pop_max ps >? pop_min ps) with true by (symmetry; apply Z.gtb_lt; lia).
    pose proof (inject_Z_sub_nonzero _ _ Hlt) as Hnz.
    rewrite Z.sub_diag.
    split; [field; exact Hnz|]. split; [field; exact Hnz|].
    field_simplify; [reflexivity|exact Hnz].
  - intros Heq. unfold get_radius. rewrite Heq, Z.gtb_ltb, Z.ltb_irrefl.
    reflexivity.
Qed.

(** ** Kingdom filter *)

(** C4: whenever the build succeeds, with [kgs] the selected kingdoms
    (the rows whose name is in a non-empty selection, all rows for the
    empty selection), the kingdom layer holds exactly [kgs], coloured by the
    colour assignment run on [kgs], and the map centre is the one computed
    from [kgs]; the build with a selection equals the unfiltered build on
    [kgs]. *)
Theorem filter_before_colors_and_center :
  forall union_centroid rainbow_hex selected locs ks pops v,
  Sameinad.map_build union_centroid rainbow_hex selected locs ks pops = Ok v ->
  let kgs := Sameinad.select_kingdoms selected ks in
  (selected <> [] ->
     kgs = filter (fun k => existsb (String.eqb (k_name k)) selected) ks) /\
  (selected = [] -> kgs = ks) /\
  (exists feats,
     nth 1 (layers v) TileLayer = KingdomLayer feats /\
     map kf_kingdom feats = kgs /\
     map kf_color feats = Sameinad.kingdom_colors rainbow_hex kgs) /\
  Sameinad.map_center union_centroid kgs locs = Ok (center v) /\
  Sameinad.map_build union_centroid rainbow_hex [] locs kgs pops = Ok v.
Proof.
  intros uc rh sel locs ks pops v H kgs.
  split; [destruct sel; [congruence|reflexivity]|].
  split; [intros ->; reflexivity|].
  unfold Sameinad.map_build in H. fold kgs in H. inv_ok.
  destruct (combine_fst_snd _ _ kgs (Sameinad.kingdom_colors rh kgs))
    as [E1 E2]; [symmetry; apply kingdom_colors_length|].
  split; [|split].
  - eexists; split; [reflexivity|]. rewrite !map_map. simpl. split; assumption.
  - exact Ha.
  - unfold Sameinad.map_build. cbv zeta.
    change (Sameinad.select_kingdoms [] kgs) with kgs.
    rewrite Ha, Ha0, Ha1, Ha2, Ha3. reflexivity.
Qed.

(** ** Seeding *)

(** C5: the populations drawn by a render (and the generator state after
    the draw) depend only on the number of houses and the fixed seed 42,
    not on the generator state left by earlier runs; hence the whole render
    is the same from any prior generator state. *)
Theorem seeded_draw_deterministic :
  forall (mt_state : Type) (mt_seed : Z -> mt_state)
         (next_uint32 : mt_state -> Z * mt_state) (rng1 rng2 : mt_state)
         (fuel n : nat),
  seeded_populations mt_state mt_seed next_uint32 rng1 fuel n =
  seeded_populations mt_state mt_seed next_uint32 rng2 fuel n /\
  (forall union_centroid rainbow_hex selected locs ks,
     Sameinad.map_render mt_state mt_seed next_uint32 rng1 fuel union_centroid
       rainbow_hex selected locs ks =
     Sameinad.map_render mt_state mt_seed next_uint32 rng2 fuel union_centroid
       rainbow_hex selected locs ks).
Proof. intros. split; [reflexivity|]. intros. reflexivity. Qed.

(** ** Layers *)

(** C9 (amended): a successful sameinad.py build adds, in order, the tile
    layer, the kingdom polygons, the location cluster, the houses layer
    and the layer control; a successful map.py build adds the location
    cluster before the kingdom polygons. *)
Theorem layer_order :
  forall union_centroid rainbow_hex,
  (forall selected locs ks pops v,
     Sameinad.map_build union_centroid rainbow_hex selected locs ks pops = Ok v ->
     map kind_of (layers v) = [KTiles; KKingdoms; KCluster; KHouses; KControl]) /\
  (forall locs ks pops v,
     MapPy.map_build union_centroid rainbow_hex locs ks pops = Ok v ->
     map kind_of (layers v) = [KTiles; KCluster; KKingdoms; KHouses; KControl]).
Proof.
  intros uc rh. split.
  - intros sel locs ks pops v H. unfold Sameinad.map_build in H. inv_ok.
    reflexivity.
  - intros locs ks pops v H. unfold MapPy.map_build in H. inv_ok. reflexivity.
Qed.

(** C10: two successful renders that differ only in the kingdom selection
    have the same location cluster and the same houses layer: the markers
    built from the full locations result set and the circles built from
    the full houses result set with the seeded populations. *)
Theorem filter_leaves_marker_layers :
  forall mt_state mt_seed next_uint32 (rng0 : mt_state) fuel union_centroid
         rainbow_hex selected1 selected2 locs ks v1 v2,
  Sameinad.map_render mt_state mt_seed next_uint32 rng0 fuel union_centroid
    rainbow_hex selected1 locs ks = Some (Ok v1) ->
  Sameinad.map_render mt_state mt_seed next_uint32 rng0 fuel union_centroid
    rainbow_hex selected2 locs ks = Some (Ok v2) ->
  exists ms cs pops st,
    map_result Sameinad.location_marker locs = Ok ms /\
    seeded_populations mt_state mt_seed next_uint32 rng0 fuel
      (length (houses_of locs)) = Some (pops, st) /\
    house_circles (houses_of locs) pops = Ok cs /\
    nth 2 (layers v1) TileLayer = ClusterLayer ms /\
    nth 2 (layers v2) TileLayer = ClusterLayer ms /\
    nth 3 (layers v1) TileLayer = HousesLayer cs /\
    nth 3 (layers v2) TileLayer = HousesLayer cs.
Proof.
  intros mt seed next rng0 fuel uc rh sel1 sel2 locs ks v1 v2 H1 H2.
  unfold Sameinad.map_render in H1, H2.
  destruct (seeded_populations mt seed next rng0 fuel (length (houses_of locs)))
    as [[pops st]|] eqn:Ep; [|discriminate].
  injection H1 as H1. injection H2 as H2.
  unfold Sameinad.map_build in H1, H2. inv_ok.
  rewrite Ha0 in Ha5. rewrite Ha1 in Ha6. injection Ha5 as <-. injection Ha6 as <-.
  exists a0, a1, pops, st. repeat split; first [assumption | reflexivity].
Qed.

(** ** Marker styling *)

Lemma dict_get_absent : forall d key dflt,
  ~ In key (map fst d) -> dict_get d key dflt = dflt.
Proof.
  induction d as [|[k v] d IH]; intros key dflt Hn; simpl in *; [reflexivity|].
  destruct (String.eqb_spec k key) as [->|Hne]; [exfalso; tauto|].
  apply IH. tauto.
Qed.

(** C7 (amended): for a location with point geometry, the sameinad.py
    marker never fails and takes its icon and colour from the two type
    tables, with 'info-circle' and 'gray' for a type missing from them; the
    map.py marker takes only its icon from its type table (default
    'fa-info-circle') and is always 'blue'; a location with polygon geometry
    makes both raise [AttributeError]. *)
Theorem marker_style_lookup : forall l x y, loc_geom l = GPoint x y ->
  Sameinad.location_marker l =
    Ok (mkMarker (y, x) (location_popup l)
          (dict_get Sameinad.icon_mapping (loc_type l) "info-circle")
          (dict_get Sameinad.color_mapping (loc_type l) "gray")) /\
  (~ In (loc_type l) (map fst Sameinad.color_mapping) ->
     dict_get Sameinad.icon_mapping (loc_type l) "info-circle" = "info-circle" /\
     dict_get Sameinad.color_mapping (loc_type l) "gray" = "gray") /\
  MapPy.location_marker l =
    Ok (mkMarker (y, x) (location_popup l)
          (dict_get MapPy.type_icon_mapping (loc_type l) "fa-info-circle") "blue") /\
  (forall l' ring, loc_geom l' = GPolygon ring ->
     Sameinad.location_marker l' = Raise AttributeError /\
     MapPy.location_marker l' = Raise AttributeError).
Proof.
  intros l x y Hg. split; [|split; [|split]].
  - unfold Sameinad.location_marker. rewrite Hg. reflexivity.
  - intros Hn. split; apply dict_get_absent; [|exact Hn].
    change (map fst Sameinad.icon_mapping) with (map fst Sameinad.color_mapping).
    exact Hn.
  - unfold MapPy.location_marker. rewrite Hg. reflexivity.
  - intros l' ring Hg'. unfold Sameinad.location_marker, MapPy.location_marker.
    rewrite Hg'. split; reflexivity.
Qed.

(** ** Popups *)

Lemma prefix_app : forall s t, String.prefix s (s ++ t) = true.
Proof.
  induction s as [|c s IH]; intros t; simpl; [destruct t; reflexivity|].
  destruct (ascii_dec c c) as [_|n]; [apply IH|congruence].
Qed.

Lemma contains_head : forall s t, contains (s ++ t) s = true.
Proof.
  intros s t. destruct s as [|c s]; simpl.
  - destruct t; reflexivity.
  - destruct (ascii_dec c c) as [_|n]; [|congruence]. now rewrite prefix_app.
Qed.

Lemma contains_app_l : forall a t sub,
  contains t sub = true -> contains (a ++ t) sub = true.
Proof.
  induction a as [|c a IH]; intros t sub H; simpl; [exact H|].
  rewrite (IH t sub H). apply orb_true_r.
Qed.

Lemma prefix_app_r : forall s a t,
  String.prefix s a = true -> String.prefix s (a ++ t) = true.
Proof.
  induction s as [|c s IH]; intros a t H; [destruct (a ++ t); reflexivity|].
  destruct a as [|d a]; simpl in *; [discriminate|].
  destruct (ascii_dec c d); [now apply IH|discriminate].
Qed.

Lemma contains_app_r : forall a t sub,
  contains a sub = true -> contains (a ++ t) sub = true.
Proof.
  induction a as [|c a IH]; intros t sub H.
  - destruct sub; simpl in H; [|discriminate]. destruct t; reflexivity.
  - simpl in H |- *. apply orb_true_iff in H as [H|H].
    + pose proof (prefix_app_r sub (String c a) t H) as H'.
      simpl in H'. rewrite H'. reflexivity.
    + rewrite (IH t sub H). apply orb_true_r.
Qed.

Ltac find_in_popup :=
  first [ apply contains_head
        | apply contains_app_l; find_in_popup
        | apply contains_app_r; find_in_popup ].

Lemma py_or_str_falsy : forall s dflt,
  s = None \/ s = Some "" -> py_or_str s dflt = dflt.
Proof. intros s dflt [->| ->]; reflexivity. Qed.

(** C8: in sameinad.py a kingdom without summary shows the raw JSON null in
    its polygon popup, not the placeholder; the map.py polygon popup and
    the marker and circle popups of both files do show the placeholder. *)
Theorem kingdom_popup_without_placeholder :
  (exists v f,
     Sameinad.map_build Instances.vertex_mean_centroid (fun _ => NamedColor "gray")
       [] [] [Instances.kingdom_A] [] = Ok v /\
     nth 1 (layers v) TileLayer = KingdomLayer [f] /\
     k_summary (kf_kingdom f) = None /\
     contains (kf_popup f) placeholder = false) /\
  contains (MapPy.kingdom_popup Instances.kingdom_A) placeholder = true /\
  (forall k, k_summary k = None \/ k_summary k = Some "" ->
     contains (MapPy.kingdom_popup k) placeholder = true) /\
  (forall l, loc_summary l = None \/ loc_summary l = Some "" ->
     contains (location_popup l) placeholder = true /\
     forall pop, contains (house_popup l pop) placeholder = true).
Proof.
  split; [|split; [|split]].
  - do 2 eexists. split; [reflexivity|]. split; [reflexivity|].
    split; [reflexivity|]. vm_compute. reflexivity.
  - vm_compute. reflexivity.
  - intros k Hs. unfold MapPy.kingdom_popup, geojson_popup, MapPy.kingdom_popup_content.
    rewrite (py_or_str_falsy _ _ Hs).
    cbn [String.concat map geojson_row geojson_value fst snd]. find_in_popup.
  - intros l Hs. unfold location_popup, house_popup.
    rewrite (py_or_str_falsy _ _ Hs). split; [|intros pop]; find_in_popup.
Qed.

(** ** Map centre *)

Lemma map_result_all_ok : forall A B (f : A -> result B) l,
  (forall a, In a l -> exists b, f a = Ok b) -> exists bs, map_result f l = Ok bs.
Proof.
  intros A B f l. induction l as [|a l IH]; intros H; simpl; [eauto|].
  destruct (H a (or_introl eq_refl)) as [b Hb]. rewrite Hb. simpl.
  destruct IH as [bs Hbs]; [intros a' Ha'; apply H; right; exact Ha'|].
  rewrite Hbs. simpl. eauto.
Qed.

Lemma sameinad_markers_points : forall locs,
  Forall (fun l => exists x y, loc_geom l = GPoint x y) locs ->
  exists ms, map_result Sameinad.location_marker locs = Ok ms.
Proof.
  intros locs H. apply map_result_all_ok. intros l Hl.
  rewrite Forall_forall in H. destruct (H l Hl) as (x & y & Hg).
  unfold Sameinad.location_marker, folium_marker. rewrite Hg. simpl. eauto.
Qed.

Lemma house_circles_points : forall locs pops,
  Forall (fun l => exists x y, loc_geom l = GPoint x y) locs ->
  exists cs, house_circles (houses_of locs) pops = Ok cs.
Proof.
  intros locs pops H. unfold house_circles. apply map_result_all_ok.
  intros [h pop] Hin. apply in_combine_l in Hin.
  unfold houses_of in Hin. apply filter_In in Hin as [Hin _].
  rewrite Forall_forall in H. destruct (H h Hin) as (x & y & Hg).
  rewrite Hg. simpl. eauto.
Qed.

(** C1 (code defect): when the (filtered) kingdom set is empty, sameinad.py
    takes its fallback branch and computes the centre from the location
    geometries, but no build succeeds. If the location centroid exists and
    every location is a point, the render raises [AssertionError]: the
    tooltip fields [name] and [claimedby] are not properties of the empty
    kingdom FeatureCollection. Without a location centroid the centre
    raises [IndexError]. map.py with no kingdom row never renders either. *)
Theorem empty_kingdoms_never_render :
  forall union_centroid rainbow_hex selected locs ks pops,
  Sameinad.select_kingdoms selected ks = [] ->
  Sameinad.map_center union_centroid (Sameinad.select_kingdoms selected ks) locs =
    centroid_latlon union_centroid (map loc_geom locs) /\
  (forall v,
     Sameinad.map_build union_centroid rainbow_hex selected locs ks pops <> Ok v) /\
  (forall c, centroid_latlon union_centroid (map loc_geom locs) = Ok c ->
     Forall (fun l => exists x y, loc_geom l = GPoint x y) locs ->
     Sameinad.map_build union_centroid rainbow_hex selected locs ks pops =
       Raise AssertionError) /\
  (centroid_latlon union_centroid (map loc_geom locs) = Raise IndexError ->
     Sameinad.map_build union_centroid rainbow_hex selected locs ks pops =
       Raise IndexError) /\
  (forall v, MapPy.map_build union_centroid rainbow_hex locs [] pops <> Ok v).
Proof.
  intros uc rh sel locs ks pops Hsel.
  split; [rewrite Hsel; reflexivity|].
  split; [|split; [|split]].
  - intros v H. unfold Sameinad.map_build in H. cbv zeta in H. rewrite Hsel in H.
    inv_ok. simpl in Ha2. discriminate.
  - intros c Hc Hp.
    destruct (sameinad_markers_points locs Hp) as [ms Hm].
    destruct (house_circles_points locs pops Hp) as [cs Hh].
    unfold Sameinad.map_build. cbv zeta. rewrite Hsel.
    change (Sameinad.map_center uc [] locs)
      with (centroid_latlon uc (map loc_geom locs)).
    rewrite Hc. cbn [bind]. rewrite Hm. cbn [bind]. rewrite Hh. reflexivity.
  - intros Hc. unfold Sameinad.map_build. cbv zeta. rewrite Hsel.
    change (Sameinad.map_center uc [] locs)
      with (centroid_latlon uc (map loc_geom locs)).
    rewrite Hc. reflexivity.
  - intros v H. unfold MapPy.map_build in H. inv_ok. simpl in Ha2. discriminate.
Qed.

(** ** Drawn populations *)

Section Draws.
Variable mt_state : Type.
Variable next_uint32 : mt_state -> Z * mt_state.

Lemma bounded_masked_range : forall fuel st rng mask v st',
  0 <= mask ->
  bounded_masked_uint32 mt_state next_uint32 fuel st rng mask = Some (v, st') ->
  0 <= v <= rng.
Proof.
  induction fuel as [|f IH]; intros st rng mask v st' Hm H; simpl in H;
    [discriminate|].
  destruct (next_uint32 st) as [u st1].
  destruct (Z.land u mask <=? rng) eqn:E.
  - injection H as <- _. apply Z.leb_le in E. split; [|exact E].
    apply Z.land_nonneg. now right.
  - exact (IH _ _ _ _ _ Hm H).
Qed.

Lemma bounded_fill_range : forall cnt fuel st off rng mask vs st',
  0 <= mask ->
  bounded_fill mt_state next_uint32 fuel st off rng mask cnt = Some (vs, st') ->
  length vs = cnt /\ Forall (fun v => off <= v <= off + rng) vs.
Proof.
  induction cnt as [|c IH]; intros fuel st off rng mask vs st' Hm H; simpl in H.
  - injection H as <- _. split; [reflexivity|constructor].
  - destruct (bounded_masked_uint32 mt_state next_uint32 fuel st rng mask)
      as [[v st1]|] eqn:E1; [|discriminate].
    destruct (bounded_fill mt_state next_uint32 fuel st1 off rng mask c)
      as [[vs' st2]|] eqn:E2; [|discriminate].
    injection H as <- _.
    destruct (IH _ _ _ _ _ _ _ Hm E2) as [Hl Hf].
    pose proof (bounded_masked_range _ _ _ _ _ _ Hm E1).
    split; [simpl; now rewrite Hl|]. constructor; [lia|exact Hf].
Qed.

End Draws.

Lemma count_offset_seq : forall k s v,
  length (filter (fun m => 100 + m =? v) (map Z.of_nat (seq s k))) =
  if (100 + Z.of_nat s <=? v) && (v <? 100 + Z.of_nat (s + k)) then 1%nat else 0%nat.
Proof.
  induction k as [|k IH]; intros s v; cbn [seq map filter length].
  - rewrite Nat.add_0_r.
    destruct (100 + Z.of_nat s <=? v) eqn:E1, (v <? 100 + Z.of_nat s) eqn:E2;
      try reflexivity.
    apply Z.leb_le in E1. apply Z.ltb_lt in E2. lia.
  - destruct (Z.eqb_spec (100 + Z.of_nat s) v) as [E|E]; cbn [length];
    rewrite IH;
    destruct (Z.leb_spec (100 + Z.of_nat (S s)) v);
    destruct (Z.ltb_spec v (100 + Z.of_nat (S s + k)));
    destruct (Z.leb_spec (100 + Z.of_nat s) v);
    destruct (Z.ltb_spec v (100 + Z.of_nat (s + S k)));
    simpl; try reflexivity; lia.
Qed.

Lemma accepted_100_5000 : accepted 100 5000 = map Z.of_nat (seq 0 4900).
Proof. vm_compute. reflexivity. Qed.

Lemma draw_prob_100_5000 : forall v,
  (draw_prob 100 5000 v == if (100 <=? v) && (v <=? 4999) then 1 # 4900 else 0)%Q.
Proof.
  intros v. unfold draw_prob. rewrite accepted_100_5000, count_offset_seq.
  rewrite length_map, length_seq.
  replace (100 + Z.of_nat (0 + 4900)) with 5000 by reflexivity.
  replace (100 + Z.of_nat 0) with 100 by reflexivity.
  replace (v <? 5000) with (v <=? 4999)
    by (destruct (Z.leb_spec v 4999), (Z.ltb_spec v 5000); lia).
  destruct ((100 <=? v) && (v <=? 4999)); reflexivity.
Qed.

(** C6 (amended): every drawn population lies in [[100, 4999]] (numpy's
    upper bound is exclusive), one value per house; for uniformly
    distributed 32-bit words each value of [[100, 4999]] is drawn with
    probability 1/4900 and every other value, 5000 included, with
    probability 0. *)
Theorem seeded_populations_in_range :
  forall (mt_state : Type) (mt_seed : Z -> mt_state)
         (next_uint32 : mt_state -> Z * mt_state) (rng0 : mt_state) fuel n pops st,
  seeded_populations mt_state mt_seed next_uint32 rng0 fuel n = Some (pops, st) ->
  length pops = n /\ Forall (fun v => 100 <= v <= 4999) pops /\
  (forall v, draw_prob 100 5000 v ==
             if (100 <=? v) && (v <=? 4999) then 1 # 4900 else 0)%Q.
Proof.
  intros mt seed next rng0 fuel n pops st H.
  unfold seeded_populations, randint in H.
  change (5000 - 100 - 1 =? 0) with false in H. cbv iota in H.
  change (gen_mask (5000 - 100 - 1)) with 8191 in H.
  change (5000 - 100 - 1) with 4899 in H.
  destruct (bounded_fill_range mt next n fuel (seed 42) 100 4899 8191 pops st
              ltac:(lia) H) as [Hl Hf].
  split; [exact Hl|]. split; [|exact draw_prob_100_5000].
  eapply Forall_impl; [|exact Hf]. simpl. lia.
Qed.

(** ** Rainbow colours *)

Module RainbowFacts.
Import Rainbow.
Local Open Scope R_scope.

Lemma Rfloor_spec : forall r z, IZR z <= r < IZR z + 1 -> Rfloor r = z.
Proof.
  intros r z [H1 H2]. unfold Rfloor.
  rewrite <- (tech_up r (z + 1)); [lia| |]; rewrite plus_IZR; lra.
Qed.

Lemma round_low : forall r z, IZR z <= r < IZR z + 1 / 2 -> round_half_even r = z.
Proof.
  intros r z H. unfold round_half_even. rewrite (Rfloor_spec r z) by lra.
  destruct (Rlt_dec (r - IZR z) (1 / 2)); [reflexivity|lra].
Qed.

Lemma round_tie_odd : forall z, Z.even z = false ->
  round_half_even (IZR z + 1 / 2) = (z + 1)%Z.
Proof.
  intros z Hz. unfold round_half_even. rewrite (Rfloor_spec _ z) by lra.
  destruct (Rlt_dec (IZR z + 1 / 2 - IZR z) (1 / 2)); [lra|].
  destruct (Rlt_dec (1 / 2) (IZR z + 1 / 2 - IZR z)); [lra|].
  now rewrite Hz.
Qed.

Lemma to_byte_one : to_byte 1 = 255%Z.
Proof. unfold to_byte. apply round_low. rewrite Rmult_1_l. lra. Qed.

Lemma to_byte_small : forall v, 0 <= v * 255 < 1 / 2 -> to_byte v = 0%Z.
Proof. intros v H. unfold to_byte. apply round_low. simpl. lra. Qed.

Lemma to_byte_half : to_byte (1 / 2) = 128%Z.
Proof.
  unfold to_byte. replace (1 / 2 * 255) with (IZR 127 + 1 / 2) by lra.
  now apply round_tie_odd.
Qed.

Lemma clip01_id : forall v, 0 <= v <= 1 -> clip01 v = v.
Proof.
  intros v H. unfold clip01. rewrite Rmin_left by lra. now rewrite Rmax_right by lra.
Qed.

Lemma clip01_top : forall v, 1 <= v -> clip01 v = 1.
Proof.
  intros v H. unfold clip01. rewrite Rmin_right by lra. now rewrite Rmax_right by lra.
Qed.

Lemma red_top : forall x, 3 / 4 <= x -> red x = 1.
Proof.
  intros x H. unfold red. apply clip01_top. rewrite Rabs_right; lra.
Qed.

Lemma hex_at_one : hex_at 1 = HexColor 255 0 0.
Proof.
  unfold hex_at, rgb2hex. replace (Q2R 1) with 1 by (unfold Q2R; simpl; lra).
  rewrite red_top by lra. unfold green, blue.
  rewrite Rmult_1_l, sin_PI, cos_PI2, clip01_id by lra.
  rewrite to_byte_one.
  now rewrite to_byte_small by lra.
Qed.

Lemma hex_at_half_red : exists g b, hex_at (1 # 2) = HexColor 128 g b.
Proof.
  unfold hex_at, rgb2hex.
  replace (Q2R (1 # 2)) with (1 / 2) by (unfold Q2R; simpl; lra).
  replace (red (1 / 2)) with (1 / 2).
  - rewrite to_byte_half. eauto.
  - unfold red. rewrite Rabs_right by lra. rewrite clip01_id; lra.
Qed.

End RainbowFacts.

Lemma nth_map_seq0 {A} : forall (f : nat -> A) n i d,
  (i < n)%nat -> nth i (map f (seq 0 n)) d = f i.
Proof.
  intros f n i d H.
  rewrite nth_indep with (d' := f O) by (rewrite length_map, length_seq; lia).
  rewrite map_nth, seq_nth by lia. reflexivity.
Qed.

(** ** float64 rounding and the colormap index *)

Lemma pow2_pos : forall e, (0 < 2 ^ e)%Q.
Proof. intros e. apply Qpower_0_lt. reflexivity. Qed.

Lemma pow2_nonzero : forall e, ~ (2 ^ e == 0)%Q.
Proof. intros e H. pose proof (pow2_pos e) as P. rewrite H in P. discriminate. Qed.

Lemma pow2_frac : forall la lb, 0 <= la -> 0 <= lb ->
  (2 ^ (la - lb) == Z.pow 2 la # Z.to_pos (Z.pow 2 lb))%Q.
Proof.
  intros la lb Ha Hb.
  rewrite Qpower_minus by discriminate.
  rewrite <- (Zpower_Qpower 2 la), <- (Zpower_Qpower 2 lb) by assumption.
  assert (P : 0 < Z.pow 2 lb) by (apply Z.pow_pos_nonneg; lia).
  destruct (Z.pow 2 lb) as [|p|p] eqn:E; try lia. simpl.
  unfold Qdiv, Qinv, Qeq; simpl. lia.
Qed.

Lemma Qlog2_floor_spec : forall x, (0 < x)%Q ->
  (2 ^ Qlog2_floor x <= x < 2 ^ (Qlog2_floor x + 1))%Q.
Proof.
  intros [a b] Hx. unfold Qlt in Hx; simpl in Hx.
  assert (Ha : 0 < a) by lia.
  destruct (Z.log2_spec a Ha) as [A1 A2].
  destruct (Z.log2_spec (Z.pos b) ltac:(lia)) as [B1 B2].
  pose proof (Z.log2_nonneg a). pose proof (Z.log2_nonneg (Z.pos b)).
  set (la := Z.log2 a) in *. set (lb := Z.log2 (Z.pos b)) in *.
  rewrite Z.pow_succ_r in A2, B2 by lia.
  assert (Pa : 0 < Z.pow 2 la) by (apply Z.pow_pos_nonneg; lia).
  assert (Pb : 0 < Z.pow 2 lb) by (apply Z.pow_pos_nonneg; lia).
  assert (Hlo : (2 ^ (la - lb - 1) < a # b)%Q).
  { replace (la - lb - 1) with (la - (lb + 1)) by lia.
    rewrite pow2_frac by lia.
    assert (E : Z.pow 2 (lb + 1) = 2 * Z.pow 2 lb) by (rewrite Z.pow_add_r by lia; lia).
    rewrite E. unfold Qlt; cbn [Qnum Qden]. rewrite Z2Pos.id by lia. nia. }
  assert (Hhi : (a # b < 2 ^ (la - lb + 1))%Q).
  { replace (la - lb + 1) with (la + 1 - lb) by lia.
    rewrite pow2_frac by lia.
    assert (E : Z.pow 2 (la + 1) = 2 * Z.pow 2 la) by (rewrite Z.pow_add_r by lia; lia).
    rewrite E. unfold Qlt; cbn [Qnum Qden]. rewrite Z2Pos.id by lia. nia. }
  unfold Qlog2_floor; simpl Qnum; simpl Qden. fold la lb.
  destruct (Qle_bool (2 ^ (la - lb)) (a # b)) eqn:E.
  - apply Qle_bool_iff in E. split; [exact E|exact Hhi].
  - apply not_true_iff_false in E. rewrite Qle_bool_iff in E. apply Qnot_le_lt in E.
    split; [now apply Qlt_le_weak|]. now replace (la - lb - 1 + 1) with (la - lb) by lia.
Qed.

Lemma Qround_half_even_err : forall y,
  (Qabs (inject_Z (Qround_half_even y) - y) <= 1 # 2)%Q.
Proof.
  intros y. unfold Qround_half_even.
  pose proof (Qfloor_le y) as F1. pose proof (Qlt_floor y) as F2.
  set (f := Qfloor y) in *.
  rewrite inject_Z_plus in F2. change (inject_Z 1) with 1%Q in F2.
  apply Qabs_Qle_condition.
  destruct (y - inject_Z f ?= 1 # 2)%Q eqn:C.
  - apply Qeq_alt in C.
    destruct (Z.even f); [|rewrite inject_Z_plus; change (inject_Z 1) with 1%Q];
      split; Lqa.lra.
  - apply Qlt_alt in C. split; Lqa.lra.
  - apply Qgt_alt in C. rewrite inject_Z_plus. change (inject_Z 1) with 1%Q.
    split; Lqa.lra.
Qed.

Lemma f64_round_err : forall x, (2 ^ (-1022) <= x)%Q ->
  (Qabs (f64_round x - x) <= x * 2 ^ (-53))%Q.
Proof.
  intros x Hx.
  assert (Hpos : (0 < x)%Q) by (eapply Qlt_le_trans; [apply pow2_pos|exact Hx]).
  unfold f64_round, f64_round_nonneg.
  destruct (Qle_bool 0 x) eqn:E0;
    [|apply not_true_iff_false in E0; exfalso; apply E0, Qle_bool_iff, Qlt_le_weak, Hpos].
  destruct (Qle_bool x 0) eqn:E1;
    [apply Qle_bool_iff in E1; exfalso; apply (Qlt_not_le _ _ Hpos E1)|].
  destruct (Qlog2_floor_spec x Hpos) as [L1 L2].
  set (L := Qlog2_floor x) in *.
  assert (HL : -1022 <= L).
  { assert (H : (2 ^ (-1022) < 2 ^ (L + 1))%Q) by (eapply Qle_lt_trans; eassumption).
    apply Qpower_lt_compat_l_inv in H; [lia|reflexivity]. }
  rewrite Z.max_l by lia.
  set (e := L - 52).
  set (y := (x / 2 ^ e)%Q).
  assert (Hy : (x == y * 2 ^ e)%Q) by (unfold y; field; apply pow2_nonzero).
  rewrite Hy at 1.
  setoid_replace (inject_Z (Qround_half_even y) * 2 ^ e - y * 2 ^ e)%Q
    with ((inject_Z (Qround_half_even y) - y) * 2 ^ e)%Q by ring.
  rewrite Qabs_Qmult, (Qabs_pos (2 ^ e)) by (apply Qlt_le_weak, pow2_pos).
  apply Qle_trans with ((1 # 2) * 2 ^ e)%Q.
  - apply Qmult_le_compat_r; [apply Qround_half_even_err|apply Qlt_le_weak, pow2_pos].
  - setoid_replace ((1 # 2) * 2 ^ e)%Q with (2 ^ L * 2 ^ (-53))%Q.
    + apply Qmult_le_compat_r; [exact L1|apply Qlt_le_weak, pow2_pos].
    + unfold e. replace (L - 52) with (L + (-53) + 1) by lia.
      rewrite !Qpower_plus by discriminate. change (2 ^ 1)%Q with 2%Q. field.
Qed.

Lemma Qfloor_eq : forall p k, (inject_Z k <= p < inject_Z k + 1)%Q -> Qfloor p = k.
Proof.
  intros p k [H1 H2].
  pose proof (Qfloor_le p) as F1. pose proof (Qlt_floor p) as F2.
  rewrite inject_Z_plus in F2. change (inject_Z 1) with 1%Q in *.
  assert (A : (inject_Z (Qfloor p) < inject_Z (k + 1))%Q)
    by (rewrite inject_Z_plus; change (inject_Z 1) with 1%Q; Lqa.lra).
  assert (B : (inject_Z k < inject_Z (Qfloor p + 1))%Q)
    by (rewrite inject_Z_plus; change (inject_Z 1) with 1%Q; Lqa.lra).
  rewrite <- Zlt_Qlt in A, B. lia.
Qed.

Lemma pow2_m53 : (2 ^ (-53) == 1 # 9007199254740992)%Q.
Proof. reflexivity. Qed.

Lemma pow2_m1022_le : forall z : Q, (1 # 2 <= z)%Q -> (2 ^ (-1022) <= z)%Q.
Proof.
  intros z H. apply Qle_trans with (1 # 2)%Q; [|exact H]. vm_compute. discriminate.
Qed.

Lemma cmap_index_py_div : forall n i, (i < n)%nat -> Z.of_nat n <= 2 ^ 52 ->
  cmap_index n (py_div i n) = i \/
  (1 <= i /\ cmap_index n (py_div i n) = i - 1)%nat.
Proof.
  intros n i Hi Hn.
  destruct n as [|n']; [lia|].
  destruct i as [|i'].
  { left. unfold cmap_index, py_div, f64_round, f64_round_nonneg. simpl.
    reflexivity. }
  set (n := S n') in *. set (i := S i') in *.
  set (N := inject_Z (Z.of_nat n)). set (I := inject_Z (Z.of_nat i)).
  assert (HN : (0 < N)%Q) by (unfold N, Qlt; simpl; lia).
  assert (HI1 : (1 <= I)%Q) by (unfold I, Qle; simpl; lia).
  assert (HIN : (I + 1 <= N)%Q).
  { unfold I, N. rewrite <- (inject_Z_plus _ 1). rewrite <- Zle_Qle. lia. }
  assert (HIb : (I <= 4503599627370495)%Q).
  { unfold I. change 4503599627370495%Q with (inject_Z 4503599627370495).
    rewrite <- Zle_Qle. lia. }
  set (r := (I / N)%Q).
  assert (Hr : (r * N == I)%Q) by (unfold r; field; intro E; rewrite E in HN; discriminate).
  assert (HNb : (N <= 4503599627370496)%Q).
  { unfold N. change 4503599627370496%Q with (inject_Z 4503599627370496).
    rewrite <- Zle_Qle. lia. }
  assert (Hr0 : (2 ^ (-1022) <= r)%Q).
  { destruct (Qlt_le_dec r (2 ^ (-1022))) as [Hlt|Hle]; [exfalso|exact Hle].
    assert (A : (r * N < 2 ^ (-1022) * N)%Q) by (apply Qmult_lt_r; assumption).
    assert (B : (2 ^ (-1022) * N <= 2 ^ (-1022) * 4503599627370496)%Q)
      by (apply Qmult_le_l; [apply pow2_pos|assumption]).
    assert (C : (2 ^ (-1022) * 4503599627370496 < 1)%Q) by (vm_compute; reflexivity).
    rewrite Hr in A.
    apply (Qlt_irrefl 1). eapply Qle_lt_trans; [exact HI1|].
    eapply Qlt_le_trans; [exact A|]. eapply Qle_trans; [exact B|]. now apply Qlt_le_weak. }
  pose proof (f64_round_err r Hr0) as Hq.
  set (q := f64_round r) in *.
  assert (Hz : (Qabs (q * N - I) <= I * 2 ^ (-53))%Q).
  { setoid_replace (q * N - I)%Q with ((q - r) * N)%Q by (rewrite <- Hr; ring).
    rewrite Qabs_Qmult, (Qabs_pos N) by (now apply Qlt_le_weak).
    rewrite <- Hr. setoid_replace (r * N * 2 ^ (-53))%Q with (r * 2 ^ (-53) * N)%Q by ring.
    apply Qmult_le_compat_r; [exact Hq|now apply Qlt_le_weak]. }
  set (z := (q * N)%Q) in *.
  rewrite pow2_m53 in Hz. apply Qabs_Qle_condition in Hz.
  assert (Hz0 : (2 ^ (-1022) <= z)%Q) by (apply pow2_m1022_le; Lqa.lra).
  pose proof (f64_round_err z Hz0) as Hp. rewrite pow2_m53 in Hp.
  apply Qabs_Qle_condition in Hp.
  set (p := f64_round z) in *.
  assert (Hp1 : (I - 1 < p)%Q) by Lqa.lra.
  assert (Hp2 : (p < I + 1)%Q) by Lqa.lra.
  assert (E : cmap_index n (py_div i n) =
              Z.to_nat (Qfloor p)).
  { unfold cmap_index. fold N. change (py_div i n) with q. fold z. fold p.
    destruct (Qeq_bool p N) eqn:E1.
    { apply Qeq_bool_iff in E1. rewrite E1 in Hp2. exfalso. Lqa.lra. }
    destruct (Qle_bool 0 p) eqn:E2; cbn [negb].
    2:{ exfalso. apply not_true_iff_false in E2. apply E2, Qle_bool_iff. Lqa.lra. }
    destruct (Qle_bool N p) eqn:E3; [|reflexivity].
    apply Qle_bool_iff in E3. exfalso. Lqa.lra. }
  rewrite E.
  destruct (Qlt_le_dec p I) as [Hlt|Hge].
  - right. split; [lia|].
    rewrite (Qfloor_eq p (Z.of_nat i - 1)).
    + lia.
    + replace (Z.of_nat i - 1) with (Z.of_nat i + -1) by lia.
      rewrite inject_Z_plus. change (inject_Z (-1)) with (-1)%Q. fold I. split; Lqa.lra.
  - left. rewrite (Qfloor_eq p (Z.of_nat i)); [apply Nat2Z.id|].
    fold I. split; Lqa.lra.
Qed.

Lemma sameinad_colors_nth : forall rh ks i d, (i < length ks)%nat ->
  nth i (Sameinad.kingdom_colors rh ks) d =
  rh (lut_position (length ks) (cmap_index (length ks) (py_div i (length ks)))).
Proof.
  intros rh ks i d H. unfold Sameinad.kingdom_colors.
  destruct (Nat.ltb_spec 0 (length ks)); [|lia].
  rewrite nth_map_seq0 by exact H. reflexivity.
Qed.

Lemma mappy_colors_nth : forall rh ks i d, (i < length ks)%nat ->
  nth i (MapPy.kingdom_colors rh ks) d =
  rh (lut_position (length ks) (cmap_index (length ks) (py_div i (length ks)))).
Proof.
  intros rh ks i d H. unfold MapPy.kingdom_colors.
  rewrite nth_map_seq0 by exact H. reflexivity.
Qed.

Lemma mappy_colors_length : forall rh ks, length (MapPy.kingdom_colors rh ks) = length ks.
Proof. intros. unfold MapPy.kingdom_colors. now rewrite length_map, length_seq. Qed.

Lemma hex_at_Qeq : forall x y, (x == y)%Q -> Rainbow.hex_at x = Rainbow.hex_at y.
Proof. intros x y H. unfold Rainbow.hex_at. now rewrite (Qeq_eqR x y H). Qed.


(** ** Concrete runs *)

Import Instances.

(** C1: the selection [Nowhere] matches no kingdom row; the build with
    the single location Winterfell fails at render. *)
Lemma empty_kingdoms_never_render_witness :
  Sameinad.select_kingdoms ["Nowhere"] [kingdom_A] = [] /\
  Sameinad.map_build vertex_mean_centroid (fun _ => NamedColor "gray")
    ["Nowhere"] [loc_castle] [kingdom_A] [1234] = Raise AssertionError.
Proof.
  assert (Hsel : Sameinad.select_kingdoms ["Nowhere"] [kingdom_A] = [])
    by reflexivity.
  split; [exact Hsel|].
  destruct (centroid_latlon vertex_mean_centroid (map loc_geom [loc_castle]))
    as [c|e] eqn:Ec; [|vm_compute in Ec; discriminate].
  exact (proj1 (proj2 (proj2 (empty_kingdoms_never_render vertex_mean_centroid
           (fun _ => NamedColor "gray") ["Nowhere"] [loc_castle] [kingdom_A] [1234]
           Hsel))) c Ec
           ltac:(apply Forall_cons; [do 2 eexists; reflexivity|apply Forall_nil])).
Defined.


(** The LUT entries of 22 kingdom rows, as
    [[int(np.float64(i / 22) * 22) for i in range(22)]] gives them. *)
Lemma cmap_indices_22 :
  map (fun i => cmap_index 22 (py_div i 22)) (seq 0 22) =
  [0; 1; 2; 3; 4; 5; 6; 7; 8; 9; 10; 11; 12; 13; 14; 14; 16; 17; 18; 19; 20; 21]%nat.
Proof. vm_compute. reflexivity. Qed.


(** C3: populations 100 and 5000. *)
Lemma get_radius_interpolates_witness :
  pop_min [100; 5000] = 100 /\ pop_max [100; 5000] = 5000 /\
  (get_radius (pop_min [100; 5000]%Z) (pop_max [100; 5000]%Z) (pop_min [100; 5000]%Z)
     == 5)%Q /\
  (get_radius (pop_min [100; 5000]%Z) (pop_max [100; 5000]%Z) (pop_max [100; 5000]%Z)
     == 15)%Q.
Proof.
  split; [reflexivity|]. split; [reflexivity|].
  exact (proj2 (proj1 (proj2 (proj2 (get_radius_interpolates [100; 5000] 5000
           ltac:(discriminate)))) ltac:(vm_compute; reflexivity))).
Defined.

(** C4: selecting Dorne out of two kingdoms centres the map on Dorne. *)
Lemma filter_before_colors_and_center_witness :
  exists v, Sameinad.map_build vertex_mean_centroid (fun _ => NamedColor "gray")
              ["Dorne"] [loc_castle] [kingdom_A; kingdom_B] [1234] = Ok v /\
    Sameinad.map_center vertex_mean_centroid
      (Sameinad.select_kingdoms ["Dorne"] [kingdom_A; kingdom_B]) [loc_castle] = Ok (center v).
Proof.
  destruct (Sameinad.map_build vertex_mean_centroid (fun _ => NamedColor "gray")
              ["Dorne"] [loc_castle] [kingdom_A; kingdom_B] [1234]) as [v|e] eqn:E;
    [|vm_compute in E; discriminate].
  exists v. split; [reflexivity|].
  exact (proj1 (proj2 (proj2 (proj2 (filter_before_colors_and_center _ _ _ _ _ _ v E))))).
Defined.

(** C6: three draws from a 32-bit linear congruential generator. *)
Lemma seeded_populations_in_range_witness :
  exists pops st,
    seeded_populations Z lcg_seed lcg_next 0 100 3 = Some (pops, st) /\
    length pops = 3%nat /\ Forall (fun v => 100 <= v <= 4999) pops.
Proof.
  destruct (seeded_populations Z lcg_seed lcg_next 0 100 3) as [[pops st]|] eqn:E;
    [|vm_compute in E; discriminate].
  exists pops, st. split; [reflexivity|].
  destruct (seeded_populations_in_range Z lcg_seed lcg_next 0 100 3 pops st E)
    as [Hl [Hf _]].
  split; assumption.
Defined.

(** C6: 5000 is never drawn, 100 is drawn with probability 1/4900: the draw
    is not uniform over [[100, 5000]]. *)
Lemma population_draw_excludes_5000 :
  (draw_prob 100 5000 5000 == 0)%Q /\ (draw_prob 100 5000 100 == 1 # 4900)%Q /\
  ~ (forall v, 100 <= v <= 5000 -> (draw_prob 100 5000 v == 1 # 4901)%Q).
Proof.
  split; [apply draw_prob_100_5000|]. split; [apply draw_prob_100_5000|].
  intros H. specialize (H 5000 ltac:(lia)).
  rewrite draw_prob_100_5000 in H. discriminate.
Qed.

(** C7: the tower has a type missing from the tables. *)
Lemma marker_style_lookup_witness :
  Sameinad.location_marker loc_tower =
    Ok (mkMarker (1, 4)%Q (location_popup loc_tower) "info-circle" "gray").
Proof.
  destruct (marker_style_lookup loc_tower 4 1 eq_refl) as [E [D _]].
  rewrite E. destruct (D ltac:(simpl; intuition discriminate)) as [-> ->].
  reflexivity.
Defined.

(** C7: a location of an unknown type with a polygon geometry makes the
    sameinad.py marker raise; in map.py every marker is blue, the castle
    included. *)
Lemma marker_lookup_not_total :
  ~ In (loc_type loc_region) (map fst Sameinad.color_mapping) /\
  Sameinad.location_marker loc_region = Raise AttributeError /\
  (exists m, MapPy.location_marker loc_castle = Ok m /\ mk_color m = "blue") /\
  dict_get Sameinad.color_mapping (loc_type loc_castle) "gray" = "red".
Proof.
  split; [simpl; intuition discriminate|].
  split; [reflexivity|]. split; [|reflexivity].
  eexists. split; reflexivity.
Qed.

(** C9: layers of a sameinad.py build. *)
Lemma layer_order_witness :
  exists v, Sameinad.map_build vertex_mean_centroid (fun _ => NamedColor "gray")
              [] [loc_castle] [kingdom_A] [1234] = Ok v /\
    map kind_of (layers v) = [KTiles; KKingdoms; KCluster; KHouses; KControl].
Proof.
  destruct (Sameinad.map_build vertex_mean_centroid (fun _ => NamedColor "gray")
              [] [loc_castle] [kingdom_A] [1234]) as [v|e] eqn:E;
    [|vm_compute in E; discriminate].
  exists v. split; [reflexivity|].
  exact (proj1 (layer_order vertex_mean_centroid (fun _ => NamedColor "gray"))
           [] [loc_castle] [kingdom_A] [1234] v E).
Defined.

(** C9: map.py adds the location cluster below the kingdom polygons. *)
Lemma mappy_cluster_below_kingdoms :
  exists v, MapPy.map_build vertex_mean_centroid (fun _ => NamedColor "gray")
              [loc_castle] [kingdom_A] [1234] = Ok v /\
    map kind_of (layers v) <> [KTiles; KKingdoms; KCluster; KHouses; KControl].
Proof.
  destruct (MapPy.map_build vertex_mean_centroid (fun _ => NamedColor "gray")
              [loc_castle] [kingdom_A] [1234]) as [v|e] eqn:E;
    [|vm_compute in E; discriminate].
  exists v. split; [reflexivity|].
  vm_compute in E. injection E as <-. discriminate.
Qed.

(** C10: selecting Dorne or nothing leaves the location cluster alone. *)
Lemma filter_leaves_marker_layers_witness :
  exists v1 v2,
    Sameinad.map_render Z lcg_seed lcg_next 0 100 vertex_mean_centroid
      (fun _ => NamedColor "gray") ["Dorne"] [loc_castle] [kingdom_A; kingdom_B] = Some (Ok v1) /\
    Sameinad.map_render Z lcg_seed lcg_next 0 100 vertex_mean_centroid
      (fun _ => NamedColor "gray") [] [loc_castle] [kingdom_A; kingdom_B] = Some (Ok v2) /\
    nth 2 (layers v1) TileLayer = nth 2 (layers v2) TileLayer /\
    nth 3 (layers v1) TileLayer = nth 3 (layers v2) TileLayer.
Proof.
  destruct (Sameinad.map_render Z lcg_seed lcg_next 0 100 vertex_mean_centroid
      (fun _ => NamedColor "gray") ["Dorne"] [loc_castle] [kingdom_A; kingdom_B])
    as [[v1|e1]|] eqn:E1; [|vm_compute in E1; discriminate..].
  destruct (Sameinad.map_render Z lcg_seed lcg_next 0 100 vertex_mean_centroid
      (fun _ => NamedColor "gray") [] [loc_castle] [kingdom_A; kingdom_B])
    as [[v2|e2]|] eqn:E2; [|vm_compute in E2; discriminate..].
  exists v1, v2. split; [reflexivity|]. split; [reflexivity|].
  destruct (filter_leaves_marker_layers _ _ _ _ _ _ _ _ _ _ _ _ _ E1 E2)
    as (ms & cs & pops & st & _ & _ & _ & A1 & A2 & B1 & B2).
  rewrite A1, A2, B1, B2. split; reflexivity.
Defined.

(* ================================================================== *)
(** * Facts about the dashboard data *)

Module DashboardFacts.
Import Dashboard.

(** ** Sorting and grouping *)

Lemma leb_flip : forall a b, String.leb a b = false -> String.leb b a = true.
Proof.
  intros a b H. destruct (String.leb_total a b) as [E|E]; [congruence|exact E].
Qed.

Lemma insert_str_perm : forall s l, Permutation (insert_str s l) (s :: l).
Proof.
  intros s l. induction l as [|x l IH]; simpl; [reflexivity|].
  destruct (String.leb s x); [reflexivity|].
  rewrite IH. apply perm_swap.
Qed.

Lemma sort_str_perm : forall l, Permutation (sort_str l) l.
Proof.
  induction l as [|x l IH]; simpl; [reflexivity|].
  rewrite insert_str_perm. now apply perm_skip.
Qed.

Lemma insert_str_sorted : forall s l, Sorted str_le l -> Sorted str_le (insert_str s l).
Proof.
  intros s l H. induction H as [|x l Hs IH Hhd]; simpl.
  - repeat constructor.
  - destruct (String.leb s x) eqn:E;
      [constructor; [constructor; assumption|constructor; exact E]|].
    constructor; [exact IH|].
    destruct l as [|y l]; simpl; [constructor; now apply leb_flip|].
    inversion Hhd; subst.
    destruct (String.leb s y); constructor; [now apply leb_flip|assumption].
Qed.

Lemma sort_str_sorted : forall l, Sorted str_le (sort_str l).
Proof.
  induction l as [|x l IH]; simpl; [constructor|]. now apply insert_str_sorted.
Qed.

Lemma sorted_set_spec : forall l,
  NoDup (sorted_set l) /\ Sorted str_le (sorted_set l) /\
  (forall k, In k (sorted_set l) <-> In k l).
Proof.
  intros l. unfold sorted_set. split; [|split].
  - apply (Permutation_NoDup (Permutation_sym (sort_str_perm _))), NoDup_nodup.
  - apply sort_str_sorted.
  - intros k. rewrite (sort_str_perm _ ). apply nodup_In.
Qed.

Lemma list_sum_cons : forall x l, list_sum (x :: l) = (x + list_sum l)%nat.
Proof. reflexivity. Qed.

Lemma list_sum_zero : forall A (K : list A), list_sum (map (fun _ => O) K) = O.
Proof. induction K; simpl; auto. Qed.

Lemma sum_count_occ_cons : forall a l K,
  list_sum (map (count_occ string_dec (a :: l)) K) =
  (list_sum (map (count_occ string_dec l) K) + count_occ string_dec K a)%nat.
Proof.
  intros a l K. induction K as [|k K IH]; [reflexivity|].
  cbn [map]. rewrite !list_sum_cons, IH. cbn [count_occ]. destruct (string_dec a k), (string_dec k a); subst; try congruence; lia.
Qed.

(** Summing the occurrence counts over a duplicate-free key list that
    covers the list gives its length. *)
Lemma sum_count_occ : forall l K, NoDup K -> incl l K ->
  list_sum (map (count_occ string_dec l) K) = length l.
Proof.
  induction l as [|a l IH]; intros K HK Hinc.
  - simpl. apply list_sum_zero.
  - rewrite sum_count_occ_cons, IH by (auto; intros x Hx; apply Hinc; now right).
    rewrite (proj1 (NoDup_count_occ' string_dec K) HK a) by (apply Hinc; now left).
    simpl. lia.
Qed.

Lemma count_occ_pos : forall (l : list string) k, In k l -> (0 < count_occ string_dec l k)%nat.
Proof. intros l k H. now apply count_occ_In. Qed.

(** ** Set sizes *)

Lemma nodup_length_le : forall (l : list string), (length (nodup string_dec l) <= length l)%nat.
Proof.
  induction l as [|a l IH]; simpl; [lia|]. destruct (in_dec string_dec a l); simpl; lia.
Qed.

Lemma nodup_length_eq : forall (l : list string),
  length (nodup string_dec l) = length l <-> NoDup l.
Proof.
  intros l. split.
  - induction l as [|a l IH]; simpl; intros H; [constructor|].
    destruct (in_dec string_dec a l) as [Hin|Hn].
    + pose proof (nodup_length_le l). lia.
    + simpl in H. constructor; [exact Hn|]. apply IH. lia.
  - intros H. now rewrite nodup_fixed_point.
Qed.

Lemma present_length : forall vs, (length (present vs) <= length vs)%nat /\
  (length (present vs) = length vs <-> exists ns, vs = map Some ns).
Proof.
  induction vs as [|[s|] vs [IH1 IH2]]; simpl.
  - split; [lia|]. split; [intros _; now exists []|reflexivity].
  - split; [lia|]. split.
    + intros H. destruct (proj1 IH2 ltac:(lia)) as [ns ->]. now exists (s :: ns).
    + intros [[|n ns] H]; [discriminate|]. injection H as _ ->.
      f_equal. apply IH2. eauto.
  - split; [lia|]. split; [lia|].
    intros [[|n ns] H]; discriminate.
Qed.

Lemma present_map_some : forall ns, present (map Some ns) = ns.
Proof. induction ns; simpl; congruence. Qed.

(** ** Filters *)

Lemma filter_all : forall A (f : A -> bool) l,
  (forall x, In x l -> f x = true) -> filter f l = l.
Proof.
  intros A f l H. induction l as [|a l IH]; simpl; [reflexivity|].
  rewrite H by now left. f_equal. apply IH. intros x Hx. apply H. now right.
Qed.

Lemma map_filter_comm : forall A (key : A -> string) (p : string -> bool) l,
  map key (filter (fun r => p (key r)) l) = filter p (map key l).
Proof.
  intros A key p l. induction l as [|a l IH]; simpl; [reflexivity|].
  destruct (p (key a)); simpl; congruence.
Qed.

Lemma count_occ_filter : forall (p : string -> bool) l k, p k = true ->
  count_occ string_dec (filter p l) k = count_occ string_dec l k.
Proof.
  intros p l k Hk. induction l as [|a l IH]; simpl; [reflexivity|].
  destruct (p a) eqn:Ea; simpl; destruct (string_dec a k); subst; congruence.
Qed.

Lemma fold_Zadd_of_nat : forall A (f : A -> nat) K,
  fold_right Z.add 0 (map (fun k => Z.of_nat (f k)) K) = Z.of_nat (list_sum (map f K)).
Proof. intros A f K. induction K; simpl; [reflexivity|]. rewrite IHK. lia. Qed.

Lemma length_flat_map_sum : forall A B (f : A -> list B) l,
  length (flat_map f l) = list_sum (map (fun a => length (f a)) l).
Proof.
  intros A B f l. induction l; simpl; [reflexivity|]. now rewrite length_app, IHl.
Qed.

End DashboardFacts.

(** ** Dashboard data *)

Import Dashboard DashboardFacts.

Lemma house_counts_keys : forall rows,
  map fst (house_counts rows) = sorted_set (map kingdom_name rows).
Proof. intros rows. unfold house_counts. rewrite map_map. apply map_id. Qed.

Lemma house_counts_sum : forall rows,
  list_sum (map snd (house_counts rows)) = length rows.
Proof.
  intros rows. unfold house_counts. rewrite map_map. cbn [snd].
  destruct (sorted_set_spec (map kingdom_name rows)) as (N & _ & I).
  rewrite sum_count_occ; [apply length_map|exact N|intros x Hx; now apply I].
Qed.

(** The Houses plot data: one row per kingdom that some house maps to, in
    ascending order and without repetition; each row holds the number of
    houses of that kingdom (at least one), and the counts add up to the
    number of houses. *)
Theorem house_counts_groupby : forall rows,
  let hc := house_counts rows in
  NoDup (map fst hc) /\ Sorted str_le (map fst hc) /\
  (forall k, In k (map fst hc) <-> exists r, In r rows /\ kingdom_name r = k) /\
  Forall (fun kc => snd kc = count_occ string_dec (map kingdom_name rows) (fst kc) /\
                    (0 < snd kc)%nat) hc /\
  list_sum (map snd hc) = length rows.
Proof.
  intros rows hc.
  destruct (sorted_set_spec (map kingdom_name rows)) as (N & S & I).
  unfold hc. rewrite house_counts_keys.
  split; [exact N|]. split; [exact S|]. split.
  - intros k. rewrite I, in_map_iff. split; intros (r & A & B); eauto.
  - split; [|apply house_counts_sum].
    apply Forall_forall. intros [k c] Hin. unfold house_counts in Hin.
    apply in_map_iff in Hin as (k' & E & Hk'). injection E as <- <-. simpl.
    split; [reflexivity|]. apply count_occ_pos, I, Hk'.
Qed.

(** The sidebar's kingdom choices: ascending, without repetition, and
    exactly the kingdoms of the population table and of the houses. *)
Theorem kingdom_list_sorted_union : forall pop rows,
  NoDup (kingdom_list pop rows) /\ Sorted str_le (kingdom_list pop rows) /\
  (forall k, In k (kingdom_list pop rows) <->
             In k (map fst pop) \/ exists r, In r rows /\ kingdom_name r = k).
Proof.
  intros pop rows. unfold kingdom_list.
  destruct (sorted_set_spec (map fst pop ++ map kingdom_name rows)) as (N & S & I).
  split; [exact N|]. split; [exact S|].
  intros k. rewrite I, in_app_iff, (in_map_iff kingdom_name).
  split; (intros [H|(r & A & B)]; [now left|right; eauto]).
Qed.

(** 'Total Houses' never exceeds the sum of the bars of the unfiltered
    Houses plot (the number of house rows), and equals it exactly when
    every house has a name and no two names coincide after 'House ' is
    stripped. *)
Theorem total_houses_le_counts : forall rows,
  (total_houses_count rows <= list_sum (map snd (house_counts rows)))%nat /\
  (total_houses_count rows = list_sum (map snd (house_counts rows)) <->
   exists ns, map house_name rows = map Some ns /\ NoDup ns).
Proof.
  intros rows. rewrite house_counts_sum. unfold total_houses_count, nunique.
  destruct (present_length (map house_name rows)) as [Hle Heq].
  pose proof (nodup_length_le (present (map house_name rows))) as Hnd.
  rewrite length_map in Hle, Heq.
  split; [lia|]. split.
  - intros H. destruct (proj1 Heq ltac:(lia)) as [ns Hns]. exists ns. split; [exact Hns|].
    assert (Hl : length ns = length rows)
      by (rewrite <- (length_map Some ns), <- Hns; apply length_map).
    apply nodup_length_eq. rewrite Hns, present_map_some in H. lia.
  - intros (ns & Hns & Hnd'). rewrite Hns, present_map_some.
    rewrite nodup_fixed_point by exact Hnd'.
    rewrite <- (length_map house_name rows), Hns. symmetry. apply length_map.
Qed.

Lemma filter_map_pair : forall (p : string -> bool) (g : string -> nat) K,
  filter (fun kc => p (fst kc)) (map (fun k => (k, g k)) K) =
  map (fun k => (k, g k)) (filter p K).
Proof.
  intros p g K. induction K as [|k K IH]; simpl; [reflexivity|].
  destruct (p k); simpl; congruence.
Qed.

(** With a kingdom selection the bars of the Houses plot add up to the
    number of houses of the selected kingdoms; with none, to all houses. *)
Theorem filtered_house_counts_total : forall selected rows,
  list_sum (map snd (filter_selected fst selected (house_counts rows))) =
  length (filter_selected kingdom_name selected rows).
Proof.
  intros [|s sel] rows; [apply house_counts_sum|].
  set (p := fun k => existsb (String.eqb k) (s :: sel)).
  unfold filter_selected. change (fun r : house_row => existsb (String.eqb (kingdom_name r)) (s :: sel))
    with (fun r => p (kingdom_name r)).
  change (fun kc : string * nat => existsb (String.eqb (fst kc)) (s :: sel))
    with (fun kc : string * nat => p (fst kc)).
  unfold house_counts. rewrite filter_map_pair, map_map. cbn [snd].
  destruct (sorted_set_spec (map kingdom_name rows)) as (N & _ & I).
  rewrite (map_ext_in _ (count_occ string_dec (filter p (map kingdom_name rows)))).
  - rewrite sum_count_occ.
    + rewrite <- map_filter_comm. apply length_map.
    + now apply NoDup_filter.
    + intros x Hx. apply filter_In in Hx as [Hx Hp]. apply filter_In. split; [|exact Hp].
      now apply I.
  - intros k Hk. apply filter_In in Hk as [_ Hp]. symmetry. now apply count_occ_filter.
Qed.

(** 'Total Population' is the number of (character, sworn house) pairs of
    the join: a character sworn to several houses counts once per house,
    and a character sworn to none is not counted. *)
Theorem total_population_counts_pairs : forall cs hs,
  total_population_count (df_population cs hs) =
  Z.of_nat (list_sum (map (fun c =>
    length (filter (fun h => existsb (Z.eqb (h_id h)) (c_allegiances c)) hs)) cs)).
Proof.
  intros cs hs. unfold total_population_count, df_population. rewrite map_map. cbn [snd].
  rewrite fold_Zadd_of_nat.
  destruct (sorted_set_spec (joined_kingdoms cs hs)) as (N & _ & I).
  rewrite sum_count_occ by (auto; intros x Hx; now apply I).
  unfold joined_kingdoms. rewrite length_flat_map_sum.
  f_equal. f_equal. apply map_ext. intros c. apply length_map.
Qed.

(** ** Configuration and SQL mappings *)

Lemma forallb_truthy_false : forall l,
  forallb py_truthy_str l = false <-> Exists (fun v => v = None \/ v = Some "") l.
Proof.
  induction l as [|v l IH]; simpl.
  - split; [discriminate|intros H; inversion H].
  - rewrite Exists_cons, andb_false_iff, IH.
    destruct v as [s|]; simpl.
    + destruct (String.eqb_spec s ""); subst; simpl; split; intros H;
        intuition congruence.
    + split; intros _; [left; now left|now left].
Qed.


Ltac case_region n :=
  repeat match goal with
  | |- context [String.eqb n ?b] =>
      destruct (String.eqb_spec n b) as [->|?]; cbn; try congruence
  end.

(** Every kingdom the region [CASE] produces, a NULL region included, has
    a colour in [kingdom_color_mapping], and the [CASE] maps each of its
    own results to itself. *)
Theorem region_kingdom_colored : forall r,
  In (region_kingdom r) (map fst kingdom_color_mapping) /\
  region_kingdom (Some (region_kingdom r)) = region_kingdom r.
Proof.
  intros [r|]; [|split; [cbn; repeat (first [left; reflexivity|right])|reflexivity]].
  unfold region_kingdom at 1 3. cbn [existsb orb].
  case_region r;
    (split; [cbn; repeat (first [left; reflexivity|right])|reflexivity]).
Qed.

(** The area query and the population query put a kingdom row of name [n]
    under the same kingdom exactly when [n] is one of the kingdoms the
    region [CASE] can output, or The Neck; in particular 'Beyond the Wall'
    is folded into The North for houses and population but not for area. *)
Theorem area_population_kingdoms_agree : forall n,
  area_kingdom (Some n) = Some (region_kingdom (Some n)) <->
  In n ["The North"; "The Neck"; "The Vale"; "Iron Islands"; "The Riverlands";
        "The Westerlands"; "The Stormlands"; "The Crownlands"; "The Reach"; "Dorne";
        "Other Regions"].
Proof.
  intros n. unfold area_kingdom, region_kingdom. cbn [existsb orb].
  case_region n; split; intros H;
    try solve [reflexivity | discriminate | repeat (first [left; reflexivity|right])].
  - intuition discriminate.
  - injection H as ->. repeat (first [left; reflexivity|right]).
  - intuition congruence.
Qed.

Lemma substring_full : forall t, substring 0 (String.length t) t = t.
Proof. induction t; simpl; congruence. Qed.


(** ** Map layers *)

Lemma Qdiv_nonneg_le1 : forall a d : Z, 0 < d -> 0 <= a <= d ->
  (0 <= inject_Z a / inject_Z d <= 1)%Q.
Proof.
  intros a d Hd Ha. assert (Hd' : (0 < inject_Z d)%Q) by (unfold Qlt; simpl; lia).
  split.
  - apply Qle_shift_div_l; [exact Hd'|]. unfold Qle; simpl; lia.
  - apply Qle_shift_div_r; [exact Hd'|]. rewrite Qmult_1_l. unfold Qle; simpl; lia.
Qed.

Lemma Qle_scale : forall t u : Q, (t <= u -> 5 + t * 10 <= 5 + u * 10)%Q.
Proof.
  intros t u H. apply Qplus_le_r. apply Qmult_le_compat_r; [exact H|discriminate].
Qed.

Lemma radius_bounds : forall mn mx p, mn <= p <= mx ->
  (5 <= get_radius mn mx p <= 15)%Q.
Proof.
  intros mn mx p Hp. unfold get_radius.
  destruct (Z.gtb_spec mx mn) as [Hlt|Hge]; [|split; discriminate].
  destruct (Qdiv_nonneg_le1 (p - mn) (mx - mn) ltac:(lia) ltac:(lia)) as [H0 H1].
  split.
  - apply (Qle_trans _ (5 + 0 * 10)); [discriminate|now apply Qle_scale].
  - apply (Qle_trans _ (5 + 1 * 10)); [now apply Qle_scale|discriminate].
Qed.

(** A larger population never gets a smaller circle: [get_radius] is
    monotone in the population, whatever the minimum and maximum. *)
Theorem get_radius_monotone : forall mn mx p q, p <= q ->
  (get_radius mn mx p <= get_radius mn mx q)%Q.
Proof.
  intros mn mx p q Hpq. unfold get_radius.
  destruct (Z.gtb_spec mx mn) as [Hlt|Hge]; [|apply Qle_refl].
  apply Qle_scale. assert (Hd : (0 < inject_Z (mx - mn))%Q) by (unfold Qlt; simpl; lia).
  unfold Qdiv. apply Qmult_le_compat_r; [unfold Qle; simpl; lia|].
  apply Qlt_le_weak, Qinv_lt_0_compat, Hd.
Qed.

Lemma map_result_ok : forall A B (f : A -> result B) l ys,
  map_result f l = Ok ys -> Forall2 (fun x y => f x = Ok y) l ys.
Proof.
  intros A B f l. induction l as [|a l IH]; intros ys H; simpl in H.
  - injection H as <-. constructor.
  - inv_ok. constructor; [exact Ha|now apply IH].
Qed.

Lemma map_result_some_raise : forall A B (f : A -> result B) l a e,
  In a l -> f a = Raise e -> exists e', map_result f l = Raise e'.
Proof.
  intros A B f l a e. induction l as [|b l IH]; intros Hin Hf; [destruct Hin|].
  simpl. destruct Hin as [<-|Hin].
  - rewrite Hf. simpl. eauto.
  - destruct (f b) as [y|e']; simpl; [|eauto].
    destruct (IH Hin Hf) as [e' ->]. simpl. eauto.
Qed.

Lemma mappy_marker_raise : forall l e,
  MapPy.location_marker l = Raise e -> e = AttributeError.
Proof.
  intros l e. unfold MapPy.location_marker, folium_marker.
  destruct (loc_geom l); cbn [point_yx bind]; congruence.
Qed.

(** One location with a polygon geometry makes the whole map fail with
    [AttributeError] in both scripts, once the centre is computed: the
    marker loop has no handler for it. *)
Theorem polygon_location_fails_build :
  forall union_centroid rainbow_hex locs ks pops l ring c,
  In l locs -> loc_geom l = GPolygon ring ->
  (forall selected,
     Sameinad.map_center union_centroid (Sameinad.select_kingdoms selected ks) locs = Ok c ->
     Sameinad.map_build union_centroid rainbow_hex selected locs ks pops = Raise AttributeError) /\
  (MapPy.map_center union_centroid locs = Ok c ->
   MapPy.map_build union_centroid rainbow_hex locs ks pops = Raise AttributeError).
Proof.
  intros uc rh locs ks pops l ring c Hin Hg. split.
  - intros sel Hc. unfold Sameinad.map_build. cbv zeta. rewrite Hc. simpl.
    destruct (map_result_some_raise _ _ Sameinad.location_marker locs l AttributeError Hin)
      as [e He]; [unfold Sameinad.location_marker; now rewrite Hg|].
    rewrite He. simpl. f_equal.
    exact (map_result_raise _ _ _ _ _ sameinad_marker_raise _ He).
  - intros Hc. unfold MapPy.map_build. cbv zeta. rewrite Hc. simpl.
    destruct (map_result_some_raise _ _ MapPy.location_marker locs l AttributeError Hin)
      as [e He]; [unfold MapPy.location_marker; now rewrite Hg|].
    rewrite He. simpl. f_equal.
    exact (map_result_raise _ _ _ _ _ mappy_marker_raise _ He).
Qed.

Lemma select_all_names : forall ks, Sameinad.select_kingdoms (map k_name ks) ks = ks.
Proof.
  intros [|k ks]; [reflexivity|]. unfold Sameinad.select_kingdoms.
  change (map k_name (k :: ks)) with (k_name k :: map k_name ks).
  apply filter_all. intros x Hx. apply existsb_exists. exists (k_name x). split.
  - change (k_name k :: map k_name ks) with (map k_name (k :: ks)). now apply in_map.
  - apply String.eqb_refl.
Qed.

(** Selecting every kingdom by name gives the same map as selecting none
    (the case where sameinad.py sets the selection to all names). *)
Theorem select_every_kingdom_is_no_filter :
  forall union_centroid rainbow_hex locs ks pops,
  Sameinad.map_build union_centroid rainbow_hex (map k_name ks) locs ks pops =
  Sameinad.map_build union_centroid rainbow_hex [] locs ks pops.
Proof.
  intros uc rh locs ks pops. unfold Sameinad.map_build. now rewrite select_all_names.
Qed.

Lemma marker_at_point : forall (mk : location -> result marker) l m,
  (mk = Sameinad.location_marker \/ mk = MapPy.location_marker) ->
  mk l = Ok m ->
  exists x y, loc_geom l = GPoint x y /\ mk_latlon m = (y, x) /\ mk_popup m = location_popup l.
Proof.
  intros mk l m [-> | ->] H;
    [unfold Sameinad.location_marker in H|unfold MapPy.location_marker in H];
    destruct (loc_geom l) as [x y|ring]; simpl in H; try discriminate;
    injection H as <-; exists x, y; auto.
Qed.

(** A successful build has one cluster marker per location, in the order
    of the locations, placed at the point's [(y, x)] and carrying the
    location's popup (sameinad.py: third layer; map.py: second layer). *)
Theorem one_marker_per_location :
  forall union_centroid rainbow_hex locs ks pops v,
  (forall selected,
     Sameinad.map_build union_centroid rainbow_hex selected locs ks pops = Ok v ->
     exists ms, nth 2 (layers v) TileLayer = ClusterLayer ms /\
       Forall2 (fun l m => exists x y, loc_geom l = GPoint x y /\
                  mk_latlon m = (y, x) /\ mk_popup m = location_popup l) locs ms) /\
  (MapPy.map_build union_centroid rainbow_hex locs ks pops = Ok v ->
     exists ms, nth 1 (layers v) TileLayer = ClusterLayer ms /\
       Forall2 (fun l m => exists x y, loc_geom l = GPoint x y /\
                  mk_latlon m = (y, x) /\ mk_popup m = location_popup l) locs ms).
Proof.
  intros uc rh locs ks pops v. split.
  - intros sel H. unfold Sameinad.map_build in H. inv_ok.
    exists a0. split; [reflexivity|].
    eapply Forall2_impl; [|exact (map_result_ok _ _ _ _ _ Ha0)].
    intros l m. apply marker_at_point. now left.
  - intros H. unfold MapPy.map_build in H. inv_ok.
    exists a0. split; [reflexivity|].
    eapply Forall2_impl; [|exact (map_result_ok _ _ _ _ _ Ha0)].
    intros l m. apply marker_at_point. now right.
Qed.

Lemma Forall2_in_r : forall A B (R : A -> B -> Prop) l ys y,
  Forall2 R l ys -> In y ys -> exists x, In x l /\ R x y.
Proof.
  intros A B R l ys y F. induction F as [|x y' l ys' Hr F IH]; intros Hin; [destruct Hin|].
  destruct Hin as [<-|Hin]; [exists x; simpl; auto|].
  destruct (IH Hin) as (x' & Hx & Hr'). exists x'. simpl. auto.
Qed.

Lemma house_circles_spec : forall hs ps cs,
  house_circles hs ps = Ok cs ->
  length cs = Nat.min (length hs) (length ps) /\
  Forall (fun c => 5 <= cm_radius c <= 15)%Q cs.
Proof.
  intros hs ps cs H. unfold house_circles in H.
  pose proof (map_result_ok _ _ _ _ _ H) as F.
  split; [rewrite <- (Forall2_length F); apply length_combine|].
  apply Forall_forall. intros c Hc.
  destruct (Forall2_in_r _ _ _ _ _ _ F Hc) as ([h p] & Hin & Hf).
  destruct (loc_geom h); simpl in Hf; [|discriminate]. injection Hf as <-. simpl.
  apply in_combine_r in Hin.
  assert (Hne : ps <> []) by (intros ->; destruct Hin).
  destruct (pop_min_spec ps Hne) as [_ Hmn]. destruct (pop_max_spec ps Hne) as [_ Hmx].
  apply radius_bounds. split.
  - exact (proj1 (Forall_forall _ _) Hmn p Hin).
  - exact (proj1 (Forall_forall _ _) Hmx p Hin).
Qed.

(** A rendered sameinad.py map has exactly one circle per Castle or City
    location, and every circle radius lies between 5 and 15. *)
Theorem one_circle_per_house :
  forall mt_state mt_seed next_uint32 (rng0 : mt_state) fuel union_centroid
         rainbow_hex selected locs ks v,
  Sameinad.map_render mt_state mt_seed next_uint32 rng0 fuel union_centroid
    rainbow_hex selected locs ks = Some (Ok v) ->
  exists cs, nth 3 (layers v) TileLayer = HousesLayer cs /\
    length cs = length (houses_of locs) /\
    Forall (fun c => 5 <= cm_radius c <= 15)%Q cs.
Proof.
  intros mt seed next rng0 fuel uc rh sel locs ks v H.
  unfold Sameinad.map_render in H.
  destruct (seeded_populations mt seed next rng0 fuel (length (houses_of locs)))
    as [[pops st]|] eqn:Ep; [|discriminate].
  injection H as H. unfold Sameinad.map_build in H. inv_ok.
  exists a1. split; [reflexivity|].
  destruct (house_circles_spec _ _ _ Ha1) as [Hl Hr]. split; [|exact Hr].
  unfold seeded_populations, randint in Ep.
  change (5000 - 100 - 1 =? 0) with false in Ep. cbv iota in Ep.
  change (gen_mask (5000 - 100 - 1)) with 8191 in Ep.
  change (5000 - 100 - 1) with 4899 in Ep.
  destruct (bounded_fill_range mt next _ fuel (seed 42) 100 4899 8191 pops st
              ltac:(lia) Ep) as [Hlp _].
  rewrite Hl, Hlp. apply Nat.min_id.
Qed.

(** ** Concrete runs of the map-layer facts *)

(** Populations 200 and 300 between 100 and 5000. *)
Lemma get_radius_monotone_witness :
  (get_radius 100 5000 200 <= get_radius 100 5000 300)%Q.
Proof.
  apply (get_radius_monotone 100 5000 200 300). lia.
Defined.

(** The Neck, a region with a polygon geometry, next to Winterfell. *)
Lemma polygon_location_fails_build_witness :
  Sameinad.map_build vertex_mean_centroid (fun _ => NamedColor "gray")
    [] [loc_castle; loc_region] [kingdom_A] [1234] = Raise AttributeError /\
  MapPy.map_build vertex_mean_centroid (fun _ => NamedColor "gray")
    [loc_castle; loc_region] [kingdom_A] [1234] = Raise AttributeError.
Proof.
  destruct (Sameinad.map_center vertex_mean_centroid
              (Sameinad.select_kingdoms [] [kingdom_A]) [loc_castle; loc_region])
    as [c1|e1] eqn:E1; [|vm_compute in E1; discriminate].
  destruct (MapPy.map_center vertex_mean_centroid [loc_castle; loc_region])
    as [c2|e2] eqn:E2; [|vm_compute in E2; discriminate].
  split.
  - exact (proj1 (polygon_location_fails_build vertex_mean_centroid
             (fun _ => NamedColor "gray") [loc_castle; loc_region] [kingdom_A] [1234]
             loc_region [(0, 0); (1, 0); (1, 1)]%Q c1 ltac:(simpl; auto) eq_refl) [] E1).
  - exact (proj2 (polygon_location_fails_build vertex_mean_centroid
             (fun _ => NamedColor "gray") [loc_castle; loc_region] [kingdom_A] [1234]
             loc_region [(0, 0); (1, 0); (1, 1)]%Q c2 ltac:(simpl; auto) eq_refl) E2).
Defined.

(** Winterfell, the only Castle, rendered with the two kingdoms. *)
Lemma one_circle_per_house_witness :
  exists v cs,
    Sameinad.map_render Z lcg_seed lcg_next 0 100 vertex_mean_centroid
      (fun _ => NamedColor "gray") [] [loc_castle; loc_tower] [kingdom_A; kingdom_B]
      = Some (Ok v) /\
    nth 3 (layers v) TileLayer = HousesLayer cs /\ length cs = 1%nat /\
    Forall (fun c => 5 <= cm_radius c <= 15)%Q cs.
Proof.
  destruct (Sameinad.map_render Z lcg_seed lcg_next 0 100 vertex_mean_centroid
      (fun _ => NamedColor "gray") [] [loc_castle; loc_tower] [kingdom_A; kingdom_B])
    as [[v|e]|] eqn:E; [|vm_compute in E; discriminate..].
  destruct (one_circle_per_house _ _ _ _ _ _ _ _ _ _ _ E) as (cs & H1 & H2 & H3).
  exists v, cs. split; [reflexivity|]. split; [exact H1|]. split; [exact H2|exact H3].
Defined.
